(** * thriftpy.thrift: payload comparison, client dispatcher and processor

    A shallow embedding of [thriftpy/thrift.py].  Python objects are
    modelled by their class and attribute dictionary, dictionaries by
    insertion-ordered association lists, and the protocol objects
    ([iprot], [oprot]) by a stream of tokens together with a trace of the
    operations performed on them. *)

From Stdlib Require Import ZArith List String Bool Arith Lia.
From Stdlib Require Import Sorting.Sorted Sorting.Permutation.
Import ListNotations.

Set Warnings "-register-all".

Local Open Scope string_scope.
Local Open Scope list_scope.
Local Open Scope Z_scope.

(** ** Classes and [isinstance] *)

Module PyClass.

(** A class object: its name and its direct bases. *)
Inductive cls : Type :=
| Class (name : string) (bases : list cls).

Definition cls_name (c : cls) : string :=
  match c with Class n _ => n end.

Definition cls_bases (c : cls) : list cls :=
  match c with Class _ bs => bs end.

Fixpoint cls_size (c : cls) : nat :=
  match c with
  | Class _ bs => S (list_sum (map cls_size bs))
  end.

(** [c is d] on class objects. *)
Fixpoint cls_eqb (c d : cls) {struct c} : bool :=
  match c, d with
  | Class n bs, Class m ds =>
      String.eqb n m &&
      (fix all2 (l1 l2 : list cls) {struct l1} : bool :=
         match l1, l2 with
         | [], [] => true
         | x :: l1', y :: l2' => cls_eqb x y && all2 l1' l2'
         | _, _ => false
         end) bs ds
  end.

(** [issubclass(c, d)]: [d] is [c] or is reachable from [c] through bases. *)
Fixpoint issubclass (c d : cls) {struct c} : bool :=
  cls_eqb c d ||
  match c with
  | Class _ bs => existsb (fun b => issubclass b d) bs
  end.

(** The builtin classes the module refers to. *)
Definition object_cls : cls := Class "object" [].
Definition BaseException_cls : cls := Class "BaseException" [object_cls].
Definition Exception_cls : cls := Class "Exception" [BaseException_cls].
Definition TypeError_cls : cls := Class "TypeError" [Exception_cls].
Definition ValueError_cls : cls := Class "ValueError" [Exception_cls].
Definition AttributeError_cls : cls := Class "AttributeError" [Exception_cls].
Definition EOFError_cls : cls := Class "EOFError" [Exception_cls].

(** An induction principle that reaches the bases. *)
Lemma cls_rect_bases (P : cls -> Prop) :
  (forall n bs, Forall P bs -> P (Class n bs)) ->
  forall c, P c.
Proof.
  intros step.
  fix IH 1.
  intros [n bs]. apply step.
  induction bs as [|b bs IHbs]; constructor.
  - apply IH.
  - exact IHbs.
Qed.

Lemma cls_eqb_eq : forall c d, cls_eqb c d = true <-> c = d.
Proof.
  induction c as [n bs IH] using cls_rect_bases.
  intros [m ds]. cbn [cls_eqb].
  match goal with |- context [?f bs ds] => set (all2 := f) end.
  assert (Hall : forall l, all2 bs l = true <-> bs = l).
  { induction IH as [|b bs Hb _ IHbs]; intros [|d l]; cbn.
    - tauto.
    - split; discriminate.
    - split; discriminate.
    - rewrite andb_true_iff, Hb, IHbs. split.
      + intros [-> ->]. reflexivity.
      + intros E. inversion E. auto. }
  rewrite andb_true_iff, String.eqb_eq, Hall. split.
  - intros [-> ->]. reflexivity.
  - intros E. inversion E. auto.
Qed.

Lemma cls_eqb_refl c : cls_eqb c c = true.
Proof. apply cls_eqb_eq. reflexivity. Qed.

Lemma cls_eqb_neq c d : cls_eqb c d = false <-> c <> d.
Proof.
  split.
  - intros E H. apply cls_eqb_eq in H. congruence.
  - intros H. destruct (cls_eqb c d) eqn:E; [|reflexivity].
    apply cls_eqb_eq in E. contradiction.
Qed.

Lemma issubclass_refl c : issubclass c c = true.
Proof. destruct c. cbn [issubclass]. rewrite cls_eqb_refl. reflexivity. Qed.

Lemma In_size_le (b : cls) bs :
  In b bs -> (cls_size b <= list_sum (map cls_size bs))%nat.
Proof.
  induction bs as [|x bs IH]; intros H; [contradiction|].
  change (list_sum (map cls_size (x :: bs)))
    with (cls_size x + list_sum (map cls_size bs))%nat.
  destruct H as [->|H]; [lia|]. apply IH in H. lia.
Qed.

(** A proper subclass is a strictly larger class object. *)
Lemma issubclass_size : forall c d,
  issubclass c d = true -> c = d \/ (cls_size d < cls_size c)%nat.
Proof.
  induction c as [n bs IH] using cls_rect_bases.
  intros d H. cbn [issubclass] in H.
  apply orb_true_iff in H. destruct H as [H|H].
  - left. apply cls_eqb_eq. exact H.
  - right. apply existsb_exists in H. destruct H as [b [Hin Hb]].
    rewrite Forall_forall in IH.
    pose proof (In_size_le b bs Hin) as Hle.
    change (cls_size (Class n bs)) with (S (list_sum (map cls_size bs))).
    destruct (IH b Hin d Hb) as [->|Hlt]; lia.
Qed.

Lemma issubclass_antisym c d :
  issubclass c d = true -> issubclass d c = true -> c = d.
Proof.
  intros H1 H2.
  destruct (issubclass_size _ _ H1) as [E|L1]; [exact E|].
  destruct (issubclass_size _ _ H2) as [E|L2]; [symmetry; exact E|].
  lia.
Qed.

End PyClass.

(** ** Dictionaries

    A Python [dict] with string keys: an association list in insertion
    order.  Assigning to an existing key keeps the key's position; a new
    key goes to the end. *)

Module PyDict.

Definition dict (V : Type) : Type := list (string * V).

Section Ops.
Context {V : Type}.

(** [d.get(k)] / [k in d] *)
Fixpoint dict_get (k : string) (d : dict V) : option V :=
  match d with
  | [] => None
  | (k', v) :: d' => if String.eqb k k' then Some v else dict_get k d'
  end.

Definition dict_mem (k : string) (d : dict V) : bool :=
  match dict_get k d with Some _ => true | None => false end.

(** [d[k] = v] *)
Fixpoint dict_set (k : string) (v : V) (d : dict V) : dict V :=
  match d with
  | [] => [(k, v)]
  | (k', v') :: d' =>
      if String.eqb k k' then (k', v) :: d' else (k', v') :: dict_set k v d'
  end.

(** [d.update(e)]: the items of [e] are assigned in [e]'s order. *)
Definition dict_update (d e : dict V) : dict V :=
  fold_left (fun acc kv => dict_set (fst kv) (snd kv) acc) e d.

(** [dict(pairs)] *)
Definition dict_of_pairs (l : list (string * V)) : dict V :=
  dict_update [] l.

Definition keys (d : dict V) : list string := map fst d.

(** [d == e] for the builtin [dict]: the same keys bound to equal
    values, whatever the order; [veq] is [==] on the values. *)
Definition option_eqb (veq : V -> V -> bool) (x y : option V) : bool :=
  match x, y with
  | Some a, Some b => veq a b
  | None, None => true
  | _, _ => false
  end.

Definition dict_eqb (veq : V -> V -> bool) (d e : dict V) : bool :=
  forallb (fun k => option_eqb veq (dict_get k d) (dict_get k e))
          (keys d ++ keys e).

Lemma dict_get_None k d : ~ In k (keys d) -> dict_get k d = None.
Proof.
  induction d as [|[k' v] d IH]; cbn; intros H; [reflexivity|].
  destruct (String.eqb_spec k k') as [->|N].
  - exfalso. apply H. left. reflexivity.
  - apply IH. intros Hin. apply H. right. exact Hin.
Qed.

Lemma dict_get_Some_In k v d : dict_get k d = Some v -> In k (keys d).
Proof.
  induction d as [|[k' v'] d IH]; cbn; [discriminate|].
  destruct (String.eqb_spec k k') as [->|N]; auto.
Qed.

Lemma dict_get_set_same k v d : dict_get k (dict_set k v d) = Some v.
Proof.
  induction d as [|[k' v'] d IH]; cbn.
  - rewrite String.eqb_refl. reflexivity.
  - destruct (String.eqb_spec k k') as [->|N]; cbn.
    + rewrite String.eqb_refl. reflexivity.
    + destruct (String.eqb_spec k k'); [contradiction|]. exact IH.
Qed.

Lemma dict_get_set_other k k' v d :
  k <> k' -> dict_get k (dict_set k' v d) = dict_get k d.
Proof.
  intros N. induction d as [|[k0 v0] d IH]; cbn.
  - destruct (String.eqb_spec k k'); [contradiction|]. reflexivity.
  - destruct (String.eqb_spec k' k0) as [->|N0]; cbn.
    + destruct (String.eqb_spec k k0); [contradiction|]. reflexivity.
    + destruct (String.eqb_spec k k0); [reflexivity|]. exact IH.
Qed.

Lemma keys_dict_set_mem k v d :
  In k (keys d) -> keys (dict_set k v d) = keys d.
Proof.
  induction d as [|[k0 v0] d IH]; cbn; [contradiction|].
  intros H. destruct (String.eqb_spec k k0) as [->|N]; cbn; [reflexivity|].
  f_equal. apply IH. destruct H as [E|H]; [congruence|exact H].
Qed.

Lemma dict_eqb_true_iff veq d e :
  (forall x y, veq x y = true <-> x = y) ->
  dict_eqb veq d e = true <-> (forall k, dict_get k d = dict_get k e).
Proof.
  intros Hveq. unfold dict_eqb. rewrite forallb_forall. split.
  - intros H k.
    destruct (in_dec string_dec k (keys d ++ keys e)) as [Hin|Hout].
    + specialize (H k Hin).
      destruct (dict_get k d), (dict_get k e); cbn in H;
        try discriminate; [|reflexivity].
      apply Hveq in H. congruence.
    + rewrite !dict_get_None; [reflexivity| |];
        intros Hin; apply Hout, in_or_app; auto.
  - intros H k _. rewrite H.
    destruct (dict_get k e); cbn; [|reflexivity]. apply Hveq. reflexivity.
Qed.

Lemma dict_get_app_last k (d : dict V) k0 v0 :
  dict_get k (d ++ [(k0, v0)])
  = match dict_get k d with
    | Some v => Some v
    | None => if String.eqb k k0 then Some v0 else None
    end.
Proof.
  induction d as [|[k1 v1] d IH]; cbn; [reflexivity|].
  destruct (String.eqb k k1); [reflexivity | exact IH].
Qed.

(** After [d.update(e)] a key is bound as its last item in [e] says,
    and as in [d] when [e] has no item for it. *)
Lemma dict_get_update (e : dict V) : forall (d : dict V) k,
  dict_get k (dict_update d e)
  = match dict_get k (rev e) with
    | Some v => Some v
    | None => dict_get k d
    end.
Proof.
  unfold dict_update.
  induction e as [|[k0 v0] e IH]; intros d k; cbn [fold_left rev fst snd].
  - reflexivity.
  - rewrite IH, dict_get_app_last.
    destruct (dict_get k (rev e)); [reflexivity|].
    destruct (String.eqb_spec k k0) as [->|N].
    + apply dict_get_set_same.
    + apply dict_get_set_other. exact N.
Qed.

Lemma dict_get_rev (d : dict V) k :
  NoDup (keys d) -> dict_get k (rev d) = dict_get k d.
Proof.
  induction d as [|[k0 v0] d IH]; cbn [rev keys map fst]; intros H.
  - reflexivity.
  - inversion H as [|x l Hnotin Hnodup]; subst.
    rewrite dict_get_app_last, (IH Hnodup). cbn [dict_get].
    destruct (String.eqb_spec k k0) as [->|N].
    + rewrite (dict_get_None k0 d Hnotin). reflexivity.
    + destruct (dict_get k d); reflexivity.
Qed.

Lemma keys_dict_set k v (d : dict V) :
  keys (dict_set k v d) = keys d \/
  (~ In k (keys d) /\ keys (dict_set k v d) = keys d ++ [k]).
Proof.
  induction d as [|[k0 v0] d IH]; cbn.
  - right. split; [tauto | reflexivity].
  - destruct (String.eqb_spec k k0) as [->|N]; cbn.
    + left. reflexivity.
    + destruct IH as [E|[Hnotin E]].
      * left. f_equal. exact E.
      * right. split; [|f_equal; exact E].
        intros [H|H]; [congruence | contradiction].
Qed.

Lemma NoDup_keys_dict_set k v (d : dict V) :
  NoDup (keys d) -> NoDup (keys (dict_set k v d)).
Proof.
  intros H. destruct (keys_dict_set k v d) as [E|[Hnotin E]]; rewrite E.
  - exact H.
  - apply NoDup_app; repeat split; try assumption.
    + constructor; [intros []|constructor].
    + intros x Hx [Hk|[]]. subst. contradiction.
Qed.

Lemma NoDup_keys_dict_update (e : dict V) : forall d : dict V,
  NoDup (keys d) -> NoDup (keys (dict_update d e)).
Proof.
  unfold dict_update.
  induction e as [|[k0 v0] e IH]; intros d H; cbn [fold_left fst snd].
  - exact H.
  - apply IH, NoDup_keys_dict_set, H.
Qed.

End Ops.

End PyDict.

(** ** [TPayload]: comparison *)

Module TPayload.
Import PyClass PyDict.

(** What a call yields under the interpreter's bound on nested calls. *)
Inductive outcome (A : Type) : Type :=
| Returns (a : A)
| RecursionError.
Arguments Returns {A} a.
Arguments RecursionError {A}.

Section Compare.
(** The field values of a payload and their own [==]. *)
Variable V : Type.
Variable veq : V -> V -> bool.

(** A [TPayload] instance: its class and its attribute dictionary. *)
Record instance : Type := Instance {
  __class__ : cls;
  __dict__ : dict V
}.

Definition isinstance (o : instance) (c : cls) : bool :=
  issubclass (__class__ o) c.

(** [TPayload.__eq__]:
    [isinstance(other, self.__class__) and self.__dict__ == other.__dict__] *)
Definition __eq__ (self other : instance) : bool :=
  isinstance other (__class__ self) &&
  dict_eqb veq (__dict__ self) (__dict__ other).

(** The interpreter's dispatch of a comparison operator applied to
    [a] and [b]: when the operands differ in type and [type(b)] is a
    subclass of [type(a)], the reflected method of [b] is tried first.
    Both [__eq__] and [__ne__] of [TPayload] always answer (neither
    returns [NotImplemented]), so the method tried first decides. *)
Definition reflected_first (a b : instance) : bool :=
  negb (cls_eqb (__class__ a) (__class__ b)) &&
  issubclass (__class__ b) (__class__ a).

(** [a == b] *)
Definition op_eq (a b : instance) : bool :=
  if reflected_first a b then __eq__ b a else __eq__ a b.

(** [TPayload.__ne__]: [return self != other].  [frames] is the number
    of call frames still available; the body evaluates the operator
    [!=] on the same operands, which calls [__ne__] again. *)
Fixpoint __ne__ (frames : nat) (self other : instance) : outcome bool :=
  match frames with
  | O => RecursionError
  | S n =>
      if reflected_first self other
      then __ne__ n other self
      else __ne__ n self other
  end.

(** [a != b] *)
Definition op_ne (frames : nat) (a b : instance) : outcome bool :=
  if reflected_first a b then __ne__ frames b a else __ne__ frames a b.

Lemma reflected_first_not_instance a b :
  reflected_first a b = true -> isinstance a (__class__ b) = false.
Proof.
  unfold reflected_first, isinstance. intros H.
  apply andb_true_iff in H. destruct H as [Hne Hsub].
  apply negb_true_iff, cls_eqb_neq in Hne.
  destruct (issubclass (__class__ a) (__class__ b)) eqn:E; [|reflexivity].
  exfalso. apply Hne. apply issubclass_antisym; assumption.
Qed.

Lemma not_reflected_instance a b :
  reflected_first a b = false -> isinstance b (__class__ a) = true ->
  __class__ a = __class__ b.
Proof.
  unfold reflected_first, isinstance. intros H Hsub.
  rewrite Hsub, andb_true_r in H.
  apply negb_false_iff, cls_eqb_eq in H. exact H.
Qed.

Lemma op_eq_class a b : op_eq a b = true -> __class__ a = __class__ b.
Proof.
  unfold op_eq. destruct (reflected_first a b) eqn:R; unfold __eq__; intros H;
    apply andb_true_iff in H; destruct H as [Hi _].
  - rewrite (reflected_first_not_instance _ _ R) in Hi. discriminate.
  - apply not_reflected_instance; assumption.
Qed.

Lemma op_eq_same_class a b :
  __class__ a = __class__ b ->
  op_eq a b = dict_eqb veq (__dict__ a) (__dict__ b).
Proof.
  intros E. unfold op_eq, reflected_first, __eq__, isinstance.
  rewrite E, cls_eqb_refl, issubclass_refl. reflexivity.
Qed.

Lemma __ne___overflows : forall frames a b, __ne__ frames a b = RecursionError.
Proof.
  induction frames as [|n IH]; intros a b; cbn [__ne__]; [reflexivity|].
  destruct (reflected_first a b); apply IH.
Qed.

End Compare.

Arguments Instance {V} _ _.
Arguments __class__ {V} _.
Arguments __dict__ {V} _.

End TPayload.

(** ** Values, schemas and payload objects *)

Module Thrift.
Import PyClass PyDict.

Module TType.
Definition STOP : Z := 0.
Definition VOID : Z := 1.
Definition BOOL : Z := 2.
Definition BYTE : Z := 3.
Definition I08 : Z := 3.
Definition DOUBLE : Z := 4.
Definition I16 : Z := 6.
Definition I32 : Z := 8.
Definition I64 : Z := 10.
Definition STRING : Z := 11.
Definition UTF7 : Z := 11.
Definition BINARY : Z := 11.
Definition STRUCT : Z := 12.
Definition MAP : Z := 13.
Definition SET : Z := 14.
Definition LIST : Z := 15.
Definition UTF8 : Z := 16.
Definition UTF16 : Z := 17.
End TType.

Module TMessageType.
Definition CALL : Z := 1.
Definition REPLY : Z := 2.
Definition EXCEPTION : Z := 3.
Definition ONEWAY : Z := 4.
End TMessageType.

(** Python values that travel through the dispatchers: [None], integers,
    strings, and objects given by their class and attribute dictionary. *)
Inductive value : Type :=
| VNone
| VInt (z : Z)
| VStr (s : string)
| VObj (c : cls) (d : dict value).

Definition is_None (v : value) : bool :=
  match v with VNone => true | _ => false end.

(** Truth value of [v] in a condition. *)
Definition truthy (v : value) : bool :=
  match v with
  | VNone => false
  | VInt z => negb (z =? 0)
  | VStr s => negb (String.eqb s "")
  | VObj _ _ => true
  end.

Definition isinstance (v : value) (c : cls) : bool :=
  match v with
  | VObj c' _ => issubclass c' c
  | _ => false
  end.

(** An entry of a [thrift_spec]: the tuple [(ttype, name)] of a plain
    field, or [(ttype, name, cls)] of a field bound to a class. *)
Inductive spec_item : Type :=
| Field (ttype : Z) (name : string)
| ExcField (ttype : Z) (name : string) (exc_cls : cls).

(** [item[1]] *)
Definition item_name (i : spec_item) : string :=
  match i with Field _ n => n | ExcField _ n _ => n end.

(** A [thrift_spec] dictionary: field id to entry. *)
Definition spec : Type := list (Z * spec_item).

(** [sorted(d.items())] for a dictionary with integer keys. *)
Fixpoint insert_item {A : Type} (x : Z * A) (l : list (Z * A)) : list (Z * A) :=
  match l with
  | [] => [x]
  | y :: l' => if fst x <=? fst y then x :: l else y :: insert_item x l'
  end.

Definition sorted_items {A : Type} (l : list (Z * A)) : list (Z * A) :=
  fold_right insert_item [] l.

(** An instance of a generated payload class, with the [thrift_spec] of
    its class. *)
Record payload : Type := Payload {
  p_class : cls;
  thrift_spec : spec;
  p_dict : dict value
}.

Definition getattr (o : payload) (k : string) : option value :=
  dict_get k (p_dict o).

Definition hasattr (o : payload) (k : string) : bool :=
  dict_mem k (p_dict o).

(** [hasattr(o, k) and o.k is not None], with the value. *)
Definition present (a : option value) : option value :=
  match a with
  | Some v => if is_None v then None else Some v
  | None => None
  end.

Definition setattr (o : payload) (k : string) (v : value) : payload :=
  Payload (p_class o) (thrift_spec o) (dict_set k v (p_dict o)).

(** The object as a value, once raised or stored. *)
Definition to_value (o : payload) : value := VObj (p_class o) (p_dict o).

(** A generated payload class.

    Modelled from the spec: the constructor that [init_func_generator]
    (module [_compat]) builds from [default_spec] is not part of the
    sources; it default-initialises all fields to absent.
    [pc_default_spec] lists the field names in the order in which the
    constructor creates the attributes.  On a new object the
    dispatchers read [obj.read] and [obj.thrift_spec] as the method and
    the schema of the class: the constructor is taken to create no
    attribute of these names.  What is assigned later, and every lookup
    of [obj.write], goes through the attribute dictionary. *)
Record payload_class : Type := PayloadClass {
  pc_cls : cls;
  pc_thrift_spec : spec;
  pc_default_spec : list string
}.

Definition new (pc : payload_class) : payload :=
  Payload (pc_cls pc) (pc_thrift_spec pc)
          (dict_of_pairs (map (fun n => (n, VNone)) (pc_default_spec pc))).

(** A generated service: [thrift_services] and the payload classes found
    as its attributes ([<api>_args], [<api>_result]). *)
Record service : Type := Service {
  thrift_services : list string;
  service_attr : string -> option payload_class
}.

(** What a call yields: a value, or a raised exception object. *)
Inductive outcome (A : Type) : Type :=
| Ok (a : A)
| Raise (e : value).
Arguments Ok {A} a.
Arguments Raise {A} e.

(** An instance of a builtin exception class, without attributes. *)
Definition builtin_error (c : cls) : value := VObj c [].

(** Names that [setattr] does not store in the attribute dictionary of
    an instance: [__class__] and [__dict__] accept a class and a
    dictionary only, which no value here is, and [__weakref__] cannot
    be assigned. *)
Definition assignable (k : string) : bool :=
  negb (String.eqb k "__class__" || String.eqb k "__dict__"
        || String.eqb k "__weakref__").

(** [setattr(obj, k, v)] for a name [k] that comes from the caller or
    from a schema. *)
Definition py_setattr (obj : payload) (k : string) (v : value) : outcome payload :=
  if String.eqb k "__class__" || String.eqb k "__dict__"
  then Raise (builtin_error TypeError_cls)
  else if String.eqb k "__weakref__"
  then Raise (builtin_error AttributeError_cls)
  else Ok (setattr obj k v).

(** [for k, v in items: setattr(obj, k, v)] *)
Fixpoint setattrs (obj : payload) (items : list (string * value))
    : outcome payload :=
  match items with
  | [] => Ok obj
  | (k, v) :: rest =>
      match py_setattr obj k v with
      | Ok obj' => setattrs obj' rest
      | Raise e => Raise e
      end
  end.

(** *** [TException] and [TApplicationException] *)

Definition TPayload_cls : cls := Class "TPayload" [object_cls].
Definition TException_cls : cls :=
  Class "TException" [TPayload_cls; Exception_cls].
Definition TApplicationException_cls : cls :=
  Class "TApplicationException" [TException_cls].

Module TApplicationException.
Definition UNKNOWN : Z := 0.
Definition UNKNOWN_METHOD : Z := 1.
Definition INVALID_MESSAGE_TYPE : Z := 2.
Definition WRONG_METHOD_NAME : Z := 3.
Definition BAD_SEQUENCE_ID : Z := 4.
Definition MISSING_RESULT : Z := 5.
Definition INTERNAL_ERROR : Z := 6.
Definition PROTOCOL_ERROR : Z := 7.

Definition thrift_spec : spec :=
  [(1, Field TType.STRING "message"); (2, Field TType.I32 "type")].

(** [__init__(self, type=UNKNOWN, message=None)] *)
Definition __init__ (type : Z) (message : value) : payload :=
  Payload TApplicationException_cls thrift_spec
          [("type", VInt type); ("message", message)].

(** [__str__]; the text when [message] is not set comes from [type]. *)
Definition __str__ (self : payload) : outcome value :=
  match getattr self "message", getattr self "type" with
  | Some m, Some t =>
      if truthy m then Ok m
      else match t with
           | VInt 1 => Ok (VStr "Unknown method")
           | VInt 2 => Ok (VStr "Invalid message type")
           | VInt 3 => Ok (VStr "Wrong method name")
           | VInt 4 => Ok (VStr "Bad sequence ID")
           | VInt 5 => Ok (VStr "Missing result")
           | _ => Ok (VStr "Default (unknown) TApplicationException")
           end
  | _, _ => Raise (builtin_error AttributeError_cls)
  end.
End TApplicationException.

(** [args2kwargs]: the names of the schema by ascending field id, zipped
    with the positional arguments. *)
Definition arg_names (thrift_spec : spec) : list string :=
  map (fun item => item_name (snd item)) (sorted_items thrift_spec).

Definition args2kwargs (thrift_spec : spec) (args : list value) : dict value :=
  dict_of_pairs (combine (arg_names thrift_spec) args).

(** ** The protocol objects

    Modelled from the spec: the codec ([iprot], [oprot]) is an external
    collaborator.  It is taken as a stream of tokens: a message is its
    envelope, its struct and its end; a struct on the wire is the list of
    the fields that were set, by field id.  [write] serialises only the
    fields currently set, in ascending field id; [read] assigns the
    fields the schema knows and skips the others.  A read that does not
    find the token it expects fails as a transport or codec failure.
    The outbound transport is taken to accept what is written: a failure
    of the transport during a write, which would leave the call through
    the same raise, is outside the model.  The codec finds the schema as
    the attribute [thrift_spec] of the object; it cannot write an object
    whose instance binds that name to a value. *)

Inductive token : Type :=
| TMessageBegin (name : string) (mtype : Z) (seqid : Z)
| TStruct (fields : list (Z * value))
| TMessageEnd.

(** Operations performed during a call, in order. *)
Inductive event : Type :=
| EvReadMessageBegin
| EvSkip (ttype : Z)
| EvReadStruct
| EvReadMessageEnd
| EvWriteMessageBegin (name : string) (mtype : Z) (seqid : Z)
| EvWriteStruct (fields : list (Z * value))
| EvWriteMessageEnd
| EvFlush
| EvInvoke (api : string) (kwargs : dict value).

(** The inbound stream still to be read and the operations so far. *)
Record world : Type := World {
  input : list token;
  trace : list event
}.

(** Computations over the world that return or raise; the world
    survives a raise. *)
Definition M (A : Type) : Type := world -> outcome A * world.

Definition ret {A : Type} (a : A) : M A := fun w => (Ok a, w).

Definition bind {A B : Type} (m : M A) (f : A -> M B) : M B :=
  fun w =>
    match m w with
    | (Ok a, w') => f a w'
    | (Raise e, w') => (Raise e, w')
    end.

Definition throw {A : Type} (e : value) : M A := fun w => (Raise e, w).

Definition lift {A : Type} (r : outcome A) : M A := fun w => (r, w).

Definition emit (ev : event) : M unit :=
  fun w => (Ok tt, World (input w) (trace w ++ [ev])).

Declare Scope thrift_scope.
Delimit Scope thrift_scope with thrift.
Notation "x <- m ;; k" := (bind m (fun x => k))
  (at level 100, m at next level, right associativity) : thrift_scope.
Notation "m ;; k" := (bind m (fun _ => k))
  (at level 100, right associativity) : thrift_scope.
Local Open Scope thrift_scope.

(** [raise v]: an object whose class derives from [BaseException] is
    raised; anything else is a [TypeError]. *)
Definition py_raise {A : Type} (v : value) : M A :=
  if isinstance v BaseException_cls then throw v
  else throw (builtin_error TypeError_cls).

Definition transport_error : value := builtin_error EOFError_cls.

Definition read_message_begin : M (string * Z * Z) :=
  fun w =>
    match input w with
    | TMessageBegin name mtype seqid :: rest =>
        (Ok (name, mtype, seqid), World rest (trace w ++ [EvReadMessageBegin]))
    | _ => (Raise transport_error, w)
    end.

Definition read_message_end : M unit :=
  fun w =>
    match input w with
    | TMessageEnd :: rest => (Ok tt, World rest (trace w ++ [EvReadMessageEnd]))
    | _ => (Raise transport_error, w)
    end.

Definition skip (ttype : Z) : M unit :=
  fun w =>
    match input w with
    | TStruct _ :: rest => (Ok tt, World rest (trace w ++ [EvSkip ttype]))
    | _ => (Raise transport_error, w)
    end.

(** [thrift_spec.get(fid)] *)
Fixpoint spec_get (fid : Z) (s : spec) : option spec_item :=
  match s with
  | [] => None
  | (k, item) :: s' => if fid =? k then Some item else spec_get fid s'
  end.

(** The fields of a wire struct assigned to [obj]. *)
Definition assign_fields (obj : payload) (fields : list (Z * value)) : payload :=
  fold_left
    (fun o fv =>
       match spec_get (fst fv) (thrift_spec o) with
       | Some item => setattr o (item_name item) (snd fv)
       | None => o
       end)
    fields obj.

(** [iprot.read_struct(obj)], that is [obj.read(iprot)] *)
Definition read_struct (obj : payload) : M payload :=
  fun w =>
    match input w with
    | TStruct fields :: rest =>
        (Ok (assign_fields obj fields), World rest (trace w ++ [EvReadStruct]))
    | _ => (Raise transport_error, w)
    end.

(** The fields of [obj] that are set, as they go on the wire. *)
Definition wire_fields (obj : payload) : list (Z * value) :=
  flat_map
    (fun kv =>
       match getattr obj (item_name (snd kv)) with
       | Some v => if is_None v then [] else [(fst kv, v)]
       | None => []
       end)
    (sorted_items (thrift_spec obj)).

Definition write_message_begin (name : string) (mtype seqid : Z) : M unit :=
  emit (EvWriteMessageBegin name mtype seqid).

(** [oprot.write_struct(obj)] *)
Definition write_struct (obj : payload) : M unit :=
  if hasattr obj "thrift_spec"
  then throw (builtin_error TypeError_cls)
  else emit (EvWriteStruct (wire_fields obj)).

(** [obj.write(oprot)]: the name [write] is looked up on the instance
    first; a value bound there takes the place of [TPayload.write] and
    is called, and no value here can be called. *)
Definition py_write (obj : payload) : M unit :=
  if hasattr obj "write"
  then throw (builtin_error TypeError_cls)
  else write_struct obj.

(** An object that [obj.write(oprot)] serialises. *)
Definition writable (obj : payload) : bool :=
  negb (hasattr obj "write") && negb (hasattr obj "thrift_spec").

Definition write_message_end : M unit := emit EvWriteMessageEnd.

(** [oprot.trans.flush()] *)
Definition flush : M unit := emit EvFlush.

(** The tokens that a trace put on the outbound stream. *)
Definition written (t : list event) : list token :=
  flat_map
    (fun ev =>
       match ev with
       | EvWriteMessageBegin n t s => [TMessageBegin n t s]
       | EvWriteStruct f => [TStruct f]
       | EvWriteMessageEnd => [TMessageEnd]
       | _ => []
       end)
    t.

(** [getattr(self._service, name)] *)
Definition service_getattr (s : service) (name : string) : M payload_class :=
  match service_attr s name with
  | Some pc => ret pc
  | None => throw (builtin_error AttributeError_cls)
  end.

(** [x in xs] for a list of names *)
Definition name_in (x : string) (xs : list string) : bool :=
  existsb (String.eqb x) xs.

(** ** [TClient] *)

Module TClient.

Record t : Type := Make {
  _service : service;
  _seqid : Z
}.

(** [__init__(self, service, iprot, oprot=None)]; the two protocol
    objects are the world's inbound stream and trace. *)
Definition __init__ (service : service) : t :=
  Make service 0.

(** [_send(self, api, **kwargs)] *)
Definition _send (self : t) (api : string) (kwargs : dict value) : M unit :=
  write_message_begin api TMessageType.CALL (_seqid self) ;;
  cls_args <- service_getattr (_service self) (String.append api "_args") ;;
  args <- lift (setattrs (new cls_args) kwargs) ;;
  py_write args ;;
  write_message_end ;;
  flush.

(** The loop of [_recv] over [result.__dict__.items()]: the first value
    that is set under a key other than ["success"], if any. *)
Fixpoint check_throws (items : list (string * value)) : option value :=
  match items with
  | [] => None
  | (k, v) :: rest =>
      if negb (String.eqb k "success") && negb (is_None v)
      then Some v
      else check_throws rest
  end.

(** [_recv(self, api)] *)
Definition _recv (self : t) (api : string) : M value :=
  env <- read_message_begin ;;
  let '(fname, mtype, rseqid) := env in
  if mtype =? TMessageType.EXCEPTION then
    x <- read_struct
           (TApplicationException.__init__ TApplicationException.UNKNOWN VNone) ;;
    read_message_end ;;
    py_raise (to_value x)
  else
    cls_result <- service_getattr (_service self) (String.append api "_result") ;;
    result <- read_struct (new cls_result) ;;
    read_message_end ;;
    match present (getattr result "success") with
    | Some v => ret v
    | None =>
        (* void api without throws *)
        if (List.length (thrift_spec result) =? 0)%nat then ret VNone
        else
          (* check throws *)
          match check_throws (p_dict result) with
          | Some v => py_raise v
          | None =>
              (* no throws & not void api *)
              if hasattr result "success" then
                py_raise (to_value (TApplicationException.__init__
                                      TApplicationException.MISSING_RESULT VNone))
              else ret VNone
          end
    end.

(** The call [self._send(api, **kwargs)] binds the parameters [self] and
    [api] already: a keyword of either name is a [TypeError]. *)
Definition clashes_with_parameters (kwargs : dict value) : bool :=
  dict_mem "self" kwargs || dict_mem "api" kwargs.

(** [_req(self, api, *args, **kwargs)] *)
Definition _req (self : t) (api : string) (args : list value)
    (kwargs : dict value) : M value :=
  cls_args <- service_getattr (_service self) (String.append api "_args") ;;
  let _kw := args2kwargs (pc_thrift_spec cls_args) args in
  let kwargs := dict_update kwargs _kw in
  (if clashes_with_parameters kwargs
   then throw (builtin_error TypeError_cls)
   else _send self api kwargs) ;;
  _recv self api.

(** [__dir__(self)] *)
Definition __dir__ (self : t) : list string :=
  thrift_services (_service self).

(** [__getattr__(self, api)]: the partial application of [_req]. *)
Definition __getattr__ (self : t) (api : string)
    : outcome (list value -> dict value -> M value) :=
  if name_in api (thrift_services (_service self))
  then Ok (_req self api)
  else Raise (builtin_error AttributeError_cls).

End TClient.

(** ** [TProcessor] *)

Module TProcessor.

(** What a handler method does with its keyword arguments. *)
Inductive handler_outcome : Type :=
| HReturn (v : value)
| HRaise (e : value).

Record t : Type := Make {
  _service : service;
  _handler : string -> dict value -> handler_outcome
}.

(** The handler method named [api], called with keyword arguments. *)
Definition invoke (self : t) (api : string) (kwargs : dict value) : M value :=
  emit (EvInvoke api kwargs) ;;
  match _handler self api kwargs with
  | HReturn v => ret v
  | HRaise e => throw e
  end.

(** [process_in(self, iprot)] *)
Definition process_in (self : t)
    : M (string * Z * payload * option (M value)) :=
  env <- read_message_begin ;;
  let '(api, type, seqid) := env in
  if negb (name_in api (thrift_services (_service self))) then
    skip TType.STRUCT ;;
    read_message_end ;;
    ret (api, seqid,
         TApplicationException.__init__ TApplicationException.UNKNOWN_METHOD VNone,
         None)
  else
    cls_args <- service_getattr (_service self) (String.append api "_args") ;;
    args <- read_struct (new cls_args) ;;
    read_message_end ;;
    cls_result <- service_getattr (_service self) (String.append api "_result") ;;
    let result := new cls_result in
    let call := invoke self api (p_dict args) in
    ret (api, seqid, result, Some call).

(** [send_exception(self, oprot, api, exc, seqid)] *)
Definition send_exception (api : string) (exc : payload) (seqid : Z) : M unit :=
  write_message_begin api TMessageType.EXCEPTION seqid ;;
  py_write exc ;;
  write_message_end ;;
  flush.

(** [send_result(self, oprot, api, result, seqid)] *)
Definition send_result (api : string) (result : payload) (seqid : Z) : M unit :=
  write_message_begin api TMessageType.REPLY seqid ;;
  py_write result ;;
  write_message_end ;;
  flush.

(** The [for ... else] of [handle_exception] over the entries that
    follow the first in ascending field id.  Unpacking a two-element
    entry into three names is a [ValueError]. *)
Fixpoint match_slots (e : value) (result : payload) (slots : list (Z * spec_item))
    : outcome payload :=
  match slots with
  | [] => Raise e
  | (_, ExcField _ exc_name exc_cls) :: rest =>
      if isinstance e exc_cls
      then py_setattr result exc_name e
      else match_slots e result rest
  | (_, Field _ _) :: _ => Raise (builtin_error ValueError_cls)
  end.

(** [handle_exception(self, e, result)]; the bare [raise] raises [e]
    again. *)
Definition handle_exception (e : value) (result : payload) : M payload :=
  if (List.length (thrift_spec result) =? 1)%nat then throw e
  else lift (match_slots e result (tl (sorted_items (thrift_spec result)))).

(** [call()], where [call] may be [None]. *)
Definition py_call (call : option (M value)) : M value :=
  match call with
  | Some c => c
  | None => throw (builtin_error TypeError_cls)
  end.

(** [try: body  except Exception as e: handler(e)] *)
Definition try_except_Exception {A : Type} (body : M A) (handler : value -> M A)
    : M A :=
  fun w =>
    match body w with
    | (Raise e, w') =>
        if isinstance e Exception_cls then handler e w' else (Raise e, w')
    | r => r
    end.

(** [process(self, iprot, oprot)] *)
Definition process (self : t) : M unit :=
  r <- process_in self ;;
  let '(api, seqid, result, call) := r in
  if isinstance (to_value result) TApplicationException_cls then
    send_exception api result seqid
  else
    result' <- try_except_Exception
                 (v <- py_call call ;; ret (setattr result "success" v))
                 (fun e => handle_exception e result) ;;
    send_result api result' seqid.

End TProcessor.

End Thrift.

(** ** Sample classes and a sample service *)

Module Sample.
Import PyClass PyDict Thrift.

(** [class Point(TPayload)] and [class Point3(Point)] *)
Definition Point : cls := Class "Point" [TPayload_cls].
Definition Point3 : cls := Class "Point3" [Point].

Definition pt : TPayload.instance Z := TPayload.Instance Point [("x", 1)].
Definition pt3 : TPayload.instance Z := TPayload.Instance Point3 [("x", 1)].

(** [service Calc]:
    [i32 add(1: i32 a, 2: i32 b)],
    [i32 div(1: i32 a, 2: i32 b) throws (1: DivByZero divByZero)],
    [void ping() throws (1: Unavailable unavailable)],
    [void noop()],
    [i32 pick() throws (1: First first, 2: Second second)] with the
    second exception declared before the first. *)
Definition DivByZero : cls := Class "DivByZero" [TException_cls].
Definition Unavailable : cls := Class "Unavailable" [TException_cls].
Definition First : cls := Class "First" [TException_cls].
Definition Second : cls := Class "Second" [TException_cls].

Definition two_ints : spec :=
  [(1, Field TType.I32 "a"); (2, Field TType.I32 "b")].

Definition add_args : payload_class :=
  PayloadClass (Class "add_args" [TPayload_cls]) two_ints ["a"; "b"].
Definition add_result : payload_class :=
  PayloadClass (Class "add_result" [TPayload_cls])
    [(0, Field TType.I32 "success")] ["success"].
Definition div_args : payload_class :=
  PayloadClass (Class "div_args" [TPayload_cls]) two_ints ["a"; "b"].
Definition div_result : payload_class :=
  PayloadClass (Class "div_result" [TPayload_cls])
    [(0, Field TType.I32 "success");
     (1, ExcField TType.STRUCT "divByZero" DivByZero)]
    ["success"; "divByZero"].
Definition ping_args : payload_class :=
  PayloadClass (Class "ping_args" [TPayload_cls]) [] [].
Definition ping_result : payload_class :=
  PayloadClass (Class "ping_result" [TPayload_cls])
    [(1, ExcField TType.STRUCT "unavailable" Unavailable)] ["unavailable"].
Definition noop_args : payload_class :=
  PayloadClass (Class "noop_args" [TPayload_cls]) [] [].
Definition noop_result : payload_class :=
  PayloadClass (Class "noop_result" [TPayload_cls]) [] [].
Definition pick_args : payload_class :=
  PayloadClass (Class "pick_args" [TPayload_cls]) [] [].
Definition pick_result : payload_class :=
  PayloadClass (Class "pick_result" [TPayload_cls])
    [(0, Field TType.I32 "success");
     (2, ExcField TType.STRUCT "second" Second);
     (1, ExcField TType.STRUCT "first" First)]
    ["success"; "second"; "first"].

Definition lookup (table : list (string * payload_class)) (name : string)
    : option payload_class :=
  dict_get name table.

Definition Calc : service :=
  Service ["add"; "div"; "ping"; "noop"; "pick"]
    (lookup [("add_args", add_args); ("add_result", add_result);
             ("div_args", div_args); ("div_result", div_result);
             ("ping_args", ping_args); ("ping_result", ping_result);
             ("noop_args", noop_args); ("noop_result", noop_result);
             ("pick_args", pick_args); ("pick_result", pick_result)]).

Definition unavailable : value := VObj Unavailable [("why", VStr "down")].
Definition div_by_zero : value := VObj DivByZero [].

(** The handler object of the sample server. *)
Definition calc_handler (api : string) (kwargs : dict value)
    : TProcessor.handler_outcome :=
  if String.eqb api "add" then
    match dict_get "a" kwargs, dict_get "b" kwargs with
    | Some (VInt a), Some (VInt b) => TProcessor.HReturn (VInt (a + b))
    | _, _ => TProcessor.HRaise (builtin_error TypeError_cls)
    end
  else if String.eqb api "div" then
    match dict_get "a" kwargs, dict_get "b" kwargs with
    | Some (VInt a), Some (VInt b) =>
        if b =? 0 then TProcessor.HRaise div_by_zero
        else TProcessor.HReturn (VInt (a / b))
    | _, _ => TProcessor.HRaise (builtin_error TypeError_cls)
    end
  else if String.eqb api "ping" then TProcessor.HRaise unavailable
  else if String.eqb api "noop" then TProcessor.HReturn VNone
  else TProcessor.HRaise (builtin_error AttributeError_cls).

Definition client : TClient.t := TClient.__init__ Calc.
Definition processor : TProcessor.t := TProcessor.Make Calc calc_handler.

(** A message on the inbound stream. *)
Definition message (name : string) (mtype seqid : Z) (fields : list (Z * value))
    : list token :=
  [TMessageBegin name mtype seqid; TStruct fields; TMessageEnd].

End Sample.

(** ** Calls made one after the other *)

Module Session.
Import PyClass PyDict Thrift.

(** A call on the client: method name, positional and named arguments. *)
Definition call : Type := (string * list value * dict value)%type.

(** The calls are made in turn on the same client object; no method of
    [TClient] assigns an attribute of [self] after [__init__].  A call
    that raises leaves the next call to the caller, who goes on. *)
Fixpoint run_calls (c : TClient.t) (calls : list call) (w : world) : world :=
  match calls with
  | [] => w
  | (api, args, kwargs) :: calls' =>
      run_calls c calls' (snd (TClient._req c api args kwargs w))
  end.

(** The sequence ids of the CALL envelopes written, in order. *)
Definition call_seqids (t : list event) : list Z :=
  flat_map
    (fun ev =>
       match ev with
       | EvWriteMessageBegin _ mtype seqid =>
           if mtype =? TMessageType.CALL then [seqid] else []
       | _ => []
       end)
    t.


(** [m] only adds events to the trace, and each one satisfies [P]. *)
Definition appends (P : event -> Prop) {A : Type} (m : M A) : Prop :=
  forall w, exists evs, trace (snd (m w)) = trace w ++ evs /\ Forall P evs.

(** An event that, if it is a message begin, is a CALL that carries
    the sequence id [seqid]. *)
Definition call_with_seqid (seqid : Z) (ev : event) : Prop :=
  forall name mtype s,
    ev = EvWriteMessageBegin name mtype s ->
    mtype = TMessageType.CALL /\ s = seqid.


(** An application exception whose [type] is [code]. *)
Definition has_code (code : Z) (e : value) : bool :=
  match e with
  | VObj c d =>
      issubclass c TApplicationException_cls
      && match dict_get "type" d with
         | Some (VInt z) => z =? code
         | _ => false
         end
  | _ => false
  end.

(** What [_recv] may do at most, in this order. *)
Definition recv_reads : list event :=
  [EvReadMessageBegin; EvReadStruct; EvReadMessageEnd].

End Session.

(** ** Properties of the payload comparison *)

Import PyClass PyDict.

(** Called as a plain method, [__eq__] accepts an instance of a subclass
    on the right and rejects it on the left; the operator [==] asks the
    subclass first and answers [False] both ways. *)
Example eq_method_on_subclass :
  TPayload.__eq__ Z Z.eqb Sample.pt Sample.pt3 = true /\
  TPayload.__eq__ Z Z.eqb Sample.pt3 Sample.pt = false /\
  TPayload.op_eq Z Z.eqb Sample.pt Sample.pt3 = false /\
  TPayload.op_eq Z Z.eqb Sample.pt3 Sample.pt = false.
Proof. repeat split; reflexivity. Qed.

(** C9: [a == b] on payload instances holds exactly when both have the
    same concrete class and their attribute dictionaries bind the same
    names to the same values; hence [a == b] implies [b == a], also for
    an instance of a class and an instance of its subclass.  The field
    values are compared by an equality that holds exactly on identical
    values. *)
Theorem TPayload_eq_structural (V : Type) (veq : V -> V -> bool)
    (Hveq : forall x y, veq x y = true <-> x = y)
    (a b : TPayload.instance V) :
  (TPayload.op_eq V veq a b = true <->
     TPayload.__class__ a = TPayload.__class__ b /\
     forall k, dict_get k (TPayload.__dict__ a) = dict_get k (TPayload.__dict__ b))
  /\ (TPayload.op_eq V veq a b = true -> TPayload.op_eq V veq b a = true).
Proof.
  assert (Hiff : forall x y : TPayload.instance V,
             TPayload.op_eq V veq x y = true <->
             TPayload.__class__ x = TPayload.__class__ y /\
             forall k, dict_get k (TPayload.__dict__ x)
                       = dict_get k (TPayload.__dict__ y)).
  { intros x y. split.
    - intros H. pose proof (TPayload.op_eq_class V veq x y H) as Hc.
      split; [exact Hc|].
      rewrite (TPayload.op_eq_same_class V veq x y Hc) in H.
      apply (dict_eqb_true_iff veq _ _ Hveq). exact H.
    - intros [Hc Hd]. rewrite (TPayload.op_eq_same_class V veq x y Hc).
      apply (dict_eqb_true_iff veq _ _ Hveq). exact Hd. }
  split; [apply Hiff|].
  intros H. apply Hiff in H. destruct H as [Hc Hd].
  apply Hiff. split; [symmetry; exact Hc|]. intros k. symmetry. apply Hd.
Qed.

Lemma TPayload_eq_structural_witness :
  (forall x y : Z, (x =? y) = true <-> x = y) /\
  ((TPayload.op_eq Z Z.eqb Sample.pt Sample.pt3 = true <->
      Sample.Point = Sample.Point3 /\
      forall k, dict_get k [("x", 1)] = dict_get k [("x", 1)])
   /\ (TPayload.op_eq Z Z.eqb Sample.pt Sample.pt3 = true ->
       TPayload.op_eq Z Z.eqb Sample.pt3 Sample.pt = true)).
Proof.
  split; [exact Z.eqb_eq|].
  exact (TPayload_eq_structural Z Z.eqb Z.eqb_eq Sample.pt Sample.pt3).
Defined.

(** C10: [a != b] on payload instances never returns: whatever the
    number of call frames available, evaluating it ends in the
    interpreter's recursion error, so it does not yield the negation of
    [a == b]. *)
Theorem TPayload_ne_never_returns (V : Type) (frames : nat)
    (a b : TPayload.instance V) :
  TPayload.op_ne V frames a b = TPayload.RecursionError.
Proof.
  unfold TPayload.op_ne.
  destruct (TPayload.reflected_first V a b); apply TPayload.__ne___overflows.
Qed.

(** ** Properties of the dispatchers *)

Import Thrift.
Local Open Scope thrift_scope.

(** The operations are unfolded down to the world they act on. *)
Ltac run :=
  cbv beta iota delta
    [TProcessor.process TProcessor.process_in TProcessor.send_exception
     TProcessor.send_result TProcessor.invoke TProcessor.py_call
     TProcessor.try_except_Exception TProcessor.handle_exception
     TClient._recv TClient._send TClient._req
     read_message_begin read_message_end read_struct skip
     write_message_begin write_struct py_write write_message_end flush emit
     service_getattr bind ret throw lift input trace].

Lemma app_cons_assoc {A : Type} (l : list A) (x : A) (m : list A) :
  (l ++ [x]) ++ m = l ++ x :: m.
Proof. rewrite <- app_assoc. reflexivity. Qed.

(** C4: a message whose method name is not a service method makes the
    processor skip the struct, consume the message end, invoke no
    handler and write an EXCEPTION message with the same sequence id
    whose struct is an application exception of code 1; the client that
    reads this message raises that exception, and its text is
    "Unknown method". *)
Theorem unknown_method_reply (self : TProcessor.t) (api : string)
    (mtype seqid : Z) (fields : list (Z * value)) (rest : list token)
    (t : list event)
    (Hunknown : name_in api (thrift_services (TProcessor._service self)) = false) :
  let reply :=
    [EvWriteMessageBegin api TMessageType.EXCEPTION seqid;
     EvWriteStruct [(2, VInt TApplicationException.UNKNOWN_METHOD)];
     EvWriteMessageEnd; EvFlush] in
  let x := TApplicationException.__init__
             TApplicationException.UNKNOWN_METHOD VNone in
  TProcessor.process self
    (World (TMessageBegin api mtype seqid :: TStruct fields :: TMessageEnd :: rest) t)
  = (Ok tt,
     World rest
       (t ++ [EvReadMessageBegin; EvSkip TType.STRUCT; EvReadMessageEnd] ++ reply))
  /\ written reply
     = [TMessageBegin api TMessageType.EXCEPTION seqid;
        TStruct (wire_fields x); TMessageEnd]
  /\ (forall (c : TClient.t) (api' : string) (rest' : list token)
             (t' : list event),
        TClient._recv c api' (World (written reply ++ rest') t')
        = (Raise (to_value x),
           World rest' (t' ++ [EvReadMessageBegin; EvReadStruct; EvReadMessageEnd])))
  /\ TApplicationException.__str__ x = Ok (VStr "Unknown method").
Proof.
  cbv zeta. repeat split.
  - run. rewrite Hunknown. cbn. rewrite !app_cons_assoc. reflexivity.
  - intros c api' rest' t'. run. cbn. rewrite !app_cons_assoc. reflexivity.
Qed.

Lemma unknown_method_reply_witness :
  name_in "unknownOp" (thrift_services (TProcessor._service Sample.processor)) = false /\
  TProcessor.process Sample.processor
    (World (Sample.message "unknownOp" TMessageType.CALL 7 []) [])
  = (Ok tt,
     World []
       [EvReadMessageBegin; EvSkip TType.STRUCT; EvReadMessageEnd;
        EvWriteMessageBegin "unknownOp" TMessageType.EXCEPTION 7;
        EvWriteStruct [(2, VInt 1)]; EvWriteMessageEnd; EvFlush]).
Proof.
  split; [reflexivity|].
  exact (proj1 (unknown_method_reply Sample.processor "unknownOp"
                  TMessageType.CALL 7 [] [] [] eq_refl)).
Defined.

(** The claim of C6 fails: a reply envelope of type CALL is read as a
    normal reply and its success value returned. *)
Lemma recv_accepts_call_type :
  TMessageType.CALL <> TMessageType.REPLY /\
  TMessageType.CALL <> TMessageType.EXCEPTION /\
  TClient._recv Sample.client "add"
    (World (Sample.message "add" TMessageType.CALL 0 [(0, VInt 5)]) [])
  = (Ok (VInt 5),
     World [] [EvReadMessageBegin; EvReadStruct; EvReadMessageEnd]).
Proof. repeat split; discriminate. Qed.

(** *** The processor and raised errors *)

Lemma In_insert_item {A : Type} (x y : Z * A) (l : list (Z * A)) :
  In x (insert_item y l) <-> x = y \/ In x l.
Proof.
  induction l as [|z l IH]; cbn.
  - intuition congruence.
  - destruct (fst y <=? fst z); cbn; [intuition congruence|].
    rewrite IH. intuition congruence.
Qed.


Lemma length_insert_item {A : Type} (y : Z * A) (l : list (Z * A)) :
  List.length (insert_item y l) = S (List.length l).
Proof.
  induction l as [|z l IH]; cbn; [reflexivity|].
  destruct (fst y <=? fst z); cbn; [reflexivity|]. rewrite IH. reflexivity.
Qed.

Lemma length_sorted_items {A : Type} (l : list (Z * A)) :
  List.length (sorted_items l) = List.length l.
Proof.
  induction l as [|y l IH]; [reflexivity|].
  change (sorted_items (y :: l)) with (insert_item y (sorted_items l)).
  rewrite length_insert_item, IH. reflexivity.
Qed.


Lemma py_setattr_assignable (obj : payload) (k : string) (v : value) :
  assignable k = true -> py_setattr obj k v = Ok (setattr obj k v).
Proof.
  unfold assignable, py_setattr. intros H. apply negb_true_iff in H.
  apply orb_false_iff in H. destruct H as [H1 H3].
  rewrite H1, H3. reflexivity.
Qed.



(** A declared exception of a method that returns a value reaches the
    client: [div(4, 0)]. *)
Example div_by_zero_round_trip :
  let served :=
    TProcessor.process Sample.processor
      (World (Sample.message "div" TMessageType.CALL 0 [(1, VInt 4); (2, VInt 0)]) []) in
  fst served = Ok tt /\
  written (trace (snd served))
  = Sample.message "div" TMessageType.REPLY 0 [(1, Sample.div_by_zero)] /\
  fst (TClient._recv Sample.client "div" (World (written (trace (snd served))) []))
  = Raise Sample.div_by_zero.
Proof. repeat split. Qed.

(** C1: the handler of the void method [ping], declared to throw
    [Unavailable], raises an instance of [Unavailable].  The response
    schema has that one entry; [handle_exception] raises the error again
    instead of storing it, and [process] ends with the error raised and
    no message written. *)
Theorem declared_exception_of_void_method_is_reraised :
  pc_thrift_spec Sample.ping_result
  = [(1, ExcField TType.STRUCT "unavailable" Sample.Unavailable)] /\
  isinstance Sample.unavailable Sample.Unavailable = true /\
  TProcessor.handle_exception Sample.unavailable (new Sample.ping_result)
    (World [] [])
  = (Raise Sample.unavailable, World [] []) /\
  TProcessor.process Sample.processor
    (World (Sample.message "ping" TMessageType.CALL 0 []) [])
  = (Raise Sample.unavailable,
     World []
       [EvReadMessageBegin; EvReadStruct; EvReadMessageEnd; EvInvoke "ping" []]).
Proof. repeat split. Qed.



(** *** The client's sequence id *)

Section Appends.
Import Session.
Variable P : event -> Prop.

Lemma appends_ret {A : Type} (a : A) : appends P (ret a).
Proof. intros w. exists []. rewrite app_nil_r. auto. Qed.

Lemma appends_throw {A : Type} (e : value) : appends P (@throw A e).
Proof. intros w. exists []. rewrite app_nil_r. auto. Qed.

Lemma appends_lift {A : Type} (r : outcome A) : appends P (lift r).
Proof. intros w. exists []. rewrite app_nil_r. auto. Qed.

Lemma appends_emit (ev : event) : P ev -> appends P (emit ev).
Proof. intros H w. exists [ev]. auto. Qed.

Lemma appends_bind {A B : Type} (m : M A) (f : A -> M B) :
  appends P m -> (forall a, appends P (f a)) -> appends P (bind m f).
Proof.
  intros Hm Hf w. unfold bind.
  destruct (Hm w) as [evs [Ht Hall]].
  destruct (m w) as [[a|e] w1]; cbn [snd] in *.
  - destruct (Hf a w1) as [evs' [Ht' Hall']].
    exists (evs ++ evs'). rewrite Ht', Ht, app_assoc. split; [reflexivity|].
    apply Forall_app. auto.
  - exists evs. auto.
Qed.

Lemma appends_py_raise {A : Type} (v : value) : appends P (@py_raise A v).
Proof. unfold py_raise. destruct (isinstance v BaseException_cls); apply appends_throw. Qed.

Lemma appends_service_getattr (s : service) (name : string) :
  appends P (service_getattr s name).
Proof.
  unfold service_getattr. destruct (service_attr s name);
    [apply appends_ret | apply appends_throw].
Qed.

Hypothesis Hreads :
  P EvReadMessageBegin /\ P EvReadStruct /\ P EvReadMessageEnd.

Lemma appends_read_message_begin : appends P read_message_begin.
Proof.
  intros w. unfold read_message_begin.
  destruct (input w) as [|[name mtype seqid| |] rest]; cbn;
    try (exists []; rewrite app_nil_r; auto; fail).
  exists [EvReadMessageBegin]. split; [reflexivity|]. constructor; [tauto|constructor].
Qed.

Lemma appends_read_struct (obj : payload) : appends P (read_struct obj).
Proof.
  intros w. unfold read_struct.
  destruct (input w) as [|[| fields |] rest]; cbn;
    try (exists []; rewrite app_nil_r; auto; fail).
  exists [EvReadStruct]. split; [reflexivity|]. constructor; [tauto|constructor].
Qed.

Lemma appends_read_message_end : appends P read_message_end.
Proof.
  intros w. unfold read_message_end.
  destruct (input w) as [|[| |] rest]; cbn;
    try (exists []; rewrite app_nil_r; auto; fail).
  exists [EvReadMessageEnd]. split; [reflexivity|]. constructor; [tauto|constructor].
Qed.

Lemma appends_recv (c : TClient.t) (api : string) : appends P (TClient._recv c api).
Proof.
  unfold TClient._recv.
  apply appends_bind; [apply appends_read_message_begin|].
  intros [[fname mtype] rseqid].
  destruct (mtype =? TMessageType.EXCEPTION).
  - apply appends_bind; [apply appends_read_struct|]. intros x.
    apply appends_bind; [apply appends_read_message_end|]. intros _.
    apply appends_py_raise.
  - apply appends_bind; [apply appends_service_getattr|]. intros rc.
    apply appends_bind; [apply appends_read_struct|]. intros result.
    apply appends_bind; [apply appends_read_message_end|]. intros _.
    destruct (present (getattr result "success")); [apply appends_ret|].
    destruct (List.length (thrift_spec result) =? 0)%nat; [apply appends_ret|].
    destruct (TClient.check_throws (p_dict result)); [apply appends_py_raise|].
    destruct (hasattr result "success");
      [apply appends_py_raise | apply appends_ret].
Qed.

End Appends.

Lemma appends_req (c : TClient.t) (api : string) (args : list value)
    (kwargs : dict value) :
  Session.appends (Session.call_with_seqid (TClient._seqid c)) (TClient._req c api args kwargs).
Proof.
  assert (Hother : forall ev,
             (forall n m s, ev <> EvWriteMessageBegin n m s) ->
             Session.call_with_seqid (TClient._seqid c) ev).
  { intros ev H n m s E. destruct (H n m s E). }
  assert (Hemit : forall ev,
             (forall n m s, ev <> EvWriteMessageBegin n m s) ->
             Session.appends (Session.call_with_seqid (TClient._seqid c)) (emit ev)).
  { intros ev H. apply appends_emit, Hother, H. }
  unfold TClient._req.
  apply appends_bind; [apply appends_service_getattr|]. intros cls_args.
  apply appends_bind.
  - destruct (TClient.clashes_with_parameters _); [apply appends_throw|].
    unfold TClient._send, write_message_begin, write_message_end, flush.
    apply appends_bind.
    { apply appends_emit. intros n m s E. inversion E. auto. }
    intros _. apply appends_bind; [apply appends_service_getattr|]. intros ca.
    apply appends_bind; [apply appends_lift|]. intros request.
    apply appends_bind.
    { unfold py_write, write_struct.
      destruct (hasattr request "write"); [apply appends_throw|].
      destruct (hasattr request "thrift_spec"); [apply appends_throw|].
      apply Hemit; discriminate. }
    intros _. apply appends_bind; [apply Hemit; discriminate|]. intros _.
    apply Hemit; discriminate.
  - intros _. apply appends_recv.
    split; [|split]; apply Hother; discriminate.
Qed.

(** The claim of C2 fails: two calls in a row on a new client both go
    out with sequence id 0. *)
Lemma second_call_repeats_seqid :
  let replies :=
    Sample.message "add" TMessageType.REPLY 0 [(0, VInt 5)] ++
    Sample.message "add" TMessageType.REPLY 0 [(0, VInt 9)] in
  let ids :=
    Session.call_seqids
      (trace (Session.run_calls (TClient.__init__ Sample.Calc)
                [("add", [VInt 2; VInt 3], []); ("add", [VInt 4; VInt 5], [])]
                (World replies []))) in
  ids = [0; 0] /\ ids <> [0; 1] /\ ~ NoDup ids.
Proof.
  cbv zeta. repeat split.
  - discriminate.
  - intros H. inversion H as [|x l Hnotin _]. apply Hnotin. left. reflexivity.
Qed.

(** C2, amended: a new client holds sequence id 0, and whatever calls
    are made on it in turn, every message begin it writes is a CALL that
    carries sequence id 0: the client never changes its sequence id. *)
Theorem every_call_carries_seqid_zero (svc : service)
    (calls : list Session.call) (w : world) :
  TClient._seqid (TClient.__init__ svc) = 0 /\
  exists evs,
    trace (Session.run_calls (TClient.__init__ svc) calls w) = trace w ++ evs /\
    Forall (Session.call_with_seqid 0) evs /\
    Forall (fun s => s = 0) (Session.call_seqids evs).
Proof.
  split; [reflexivity|].
  assert (Hids : forall evs, Forall (Session.call_with_seqid 0) evs ->
                             Forall (fun s => s = 0) (Session.call_seqids evs)).
  { induction 1 as [|ev evs Hev _ IH]; cbn; [constructor|].
    destruct ev; cbn; try exact IH.
    destruct (mtype =? TMessageType.CALL); cbn; [|exact IH].
    constructor; [|exact IH]. apply (Hev name mtype seqid eq_refl). }
  cut (exists evs,
          trace (Session.run_calls (TClient.__init__ svc) calls w) = trace w ++ evs /\
          Forall (Session.call_with_seqid 0) evs).
  { intros [evs [Ht Hall]]. exists evs. auto. }
  revert w. induction calls as [|[[api args] kwargs] calls IH]; intros w.
  - exists []. cbn. rewrite app_nil_r. auto.
  - cbn [Session.run_calls].
    destruct (appends_req (TClient.__init__ svc) api args kwargs w) as [evs1 [Ht1 H1]].
    destruct (IH (snd (TClient._req (TClient.__init__ svc) api args kwargs w)))
      as [evs2 [Ht2 H2]].
    exists (evs1 ++ evs2). rewrite Ht2, Ht1, app_assoc. split; [reflexivity|].
    apply Forall_app. split; assumption.
Qed.

(** *** The client and the reply *)

Lemma In_dict_set (k k' : string) (v v' : value) (d : dict value) :
  In (k, v) (dict_set k' v' d) -> (k, v) = (k', v') \/ In (k, v) d.
Proof.
  induction d as [|[k0 v0] d IH]; cbn.
  - intros [H|[]]. left. congruence.
  - destruct (String.eqb_spec k' k0) as [->|N]; cbn.
    + intros [H|H]; [left; congruence | right; right; exact H].
    + intros [H|H]; [right; left; exact H|].
      destruct (IH H) as [E|Hin]; [left; exact E | right; right; exact Hin].
Qed.

(** Every attribute of a new object is [None]. *)
Lemma new_all_None (rc : payload_class) (k : string) (v : value) :
  In (k, v) (p_dict (new rc)) -> v = VNone.
Proof.
  unfold new, dict_of_pairs, dict_update. cbn [p_dict].
  assert (H : forall names (d : dict value),
             (forall k v, In (k, v) d -> v = VNone) ->
             forall k v,
               In (k, v)
                  (fold_left (fun acc kv => dict_set (fst kv) (snd kv) acc)
                             (map (fun n => (n, VNone)) names) d) ->
               v = VNone).
  { induction names as [|n names IH]; cbn; intros d Hd k0 v0 Hin.
    - exact (Hd k0 v0 Hin).
    - apply (IH (dict_set n VNone d)) in Hin; [exact Hin|].
      intros k1 v1 H1. apply In_dict_set in H1.
      destruct H1 as [E|H1]; [congruence | exact (Hd k1 v1 H1)]. }
  apply (H (pc_default_spec rc) []). intros k0 v0 [].
Qed.

(** After deserialization an attribute is [None] or a value of the wire
    struct. *)
Lemma assign_fields_values (fields : list (Z * value)) :
  forall (obj : payload) (k : string) (v : value),
    In (k, v) (p_dict (assign_fields obj fields)) ->
    In (k, v) (p_dict obj) \/ exists fid, In (fid, v) fields.
Proof.
  unfold assign_fields.
  induction fields as [|[fid x] fields IH]; cbn [fold_left]; intros obj k v Hin.
  - left. exact Hin.
  - apply IH in Hin. destruct Hin as [Hin|[fid' Hin]].
    + cbn [fst snd] in Hin.
      destruct (spec_get fid (thrift_spec obj)) as [item|].
      * cbn [setattr p_dict] in Hin. apply In_dict_set in Hin.
        destruct Hin as [E|Hin]; [|left; exact Hin].
        right. exists fid. left. congruence.
      * left. exact Hin.
    + right. exists fid'. right. exact Hin.
Qed.


Lemma assign_fields_class (fields : list (Z * value)) :
  forall obj, p_class (assign_fields obj fields) = p_class obj.
Proof.
  unfold assign_fields.
  induction fields as [|[fid x] fields IH]; cbn [fold_left]; intros obj.
  - reflexivity.
  - rewrite IH. cbn [fst snd].
    destruct (spec_get fid (thrift_spec obj)); reflexivity.
Qed.

(** The [type] of an application exception after deserialization is
    the one it had or the value of a field 2 of the wire struct. *)
Lemma assign_fields_type (fields : list (Z * value)) :
  forall (obj : payload) (v : value),
    thrift_spec obj = TApplicationException.thrift_spec ->
    getattr (assign_fields obj fields) "type" = Some v ->
    getattr obj "type" = Some v \/ In (2, v) fields.
Proof.
  unfold assign_fields.
  induction fields as [|[fid x] fields IH]; cbn [fold_left];
    intros obj v Hspec Hget.
  - left. exact Hget.
  - cbn [fst snd] in Hget. rewrite Hspec in Hget.
    unfold TApplicationException.thrift_spec in Hget. cbn [spec_get] in Hget.
    destruct (Z.eqb_spec fid 1) as [->|N1];
      [|destruct (Z.eqb_spec fid 2) as [->|N2]];
      (apply IH in Hget; [|exact Hspec]);
      (destruct Hget as [Hget|Hin]; [|right; right; exact Hin]).
    + left. unfold getattr in *. cbn [setattr p_dict item_name] in Hget.
      rewrite dict_get_set_other in Hget by discriminate. exact Hget.
    + right. left. unfold getattr in Hget.
      cbn [setattr p_dict item_name] in Hget.
      rewrite dict_get_set_same in Hget. congruence.
    + left. exact Hget.
Qed.


Lemma check_throws_Some (d : dict value) (v : value) :
  TClient.check_throws d = Some v ->
  exists k, In (k, v) d /\ k <> "success" /\ v <> VNone.
Proof.
  induction d as [|[k0 v0] d IH]; cbn; [discriminate|].
  destruct (String.eqb_spec k0 "success") as [->|N]; cbn.
  - intros H. destruct (IH H) as [k [Hin Hk]]. exists k. auto.
  - destruct v0; cbn.
    + intros H. destruct (IH H) as [k [Hin Hk]]. exists k. auto.
    + intros H. inversion H. subst. exists k0. repeat split; auto; discriminate.
    + intros H. inversion H. subst. exists k0. repeat split; auto; discriminate.
    + intros H. inversion H. subst. exists k0. repeat split; auto; discriminate.
Qed.



(** C6, amended: the client tests the message type of the reply
    envelope against EXCEPTION only; with any other type (REPLY, CALL,
    ONEWAY or an unknown code) the message is read exactly as a REPLY
    is.  The client builds no application exception of code
    INVALID_MESSAGE_TYPE itself: when a call raises one, either the
    raised object is a field value of the struct that the peer sent, or
    the envelope is of type EXCEPTION and field 2 of its struct carries
    that code. *)
Theorem recv_reads_any_other_type_as_reply (c : TClient.t) (api fname : string)
    (mtype rseqid : Z) (rest : list token) (t : list event) :
  let w := World (TMessageBegin fname mtype rseqid :: rest) t in
  (mtype <> TMessageType.EXCEPTION ->
   TClient._recv c api w
   = TClient._recv c api
       (World (TMessageBegin fname TMessageType.REPLY rseqid :: rest) t))
  /\ (forall (e : value) (w' : world),
        TClient._recv c api w = (Raise e, w') ->
        Session.has_code TApplicationException.INVALID_MESSAGE_TYPE e = true ->
        exists (fields : list (Z * value)) (rest' : list token),
          rest = TStruct fields :: rest' /\
          ((exists fid, In (fid, e) fields) \/
           (mtype = TMessageType.EXCEPTION /\
            In (2, VInt TApplicationException.INVALID_MESSAGE_TYPE) fields))).
Proof.
  cbv zeta. split.
  - intros Hmtype. run. apply Z.eqb_neq in Hmtype. rewrite Hmtype. reflexivity.
  - intros e w' Hrun Hcode. revert Hrun. run.
    destruct rest as [|[n m s|fields|] rest'];
      try (destruct (mtype =? TMessageType.EXCEPTION);
           [|destruct (service_attr (TClient._service c)
                         (String.append api "_result"))];
           cbn; intros H; inversion H; subst e; discriminate Hcode).
    intros Hrun. exists fields, rest'. split; [reflexivity|].
    destruct (Z.eqb_spec mtype TMessageType.EXCEPTION) as [->|Hm].
    + (* the exception that the peer sent *)
      right. split; [reflexivity|].
      cbn in Hrun.
      set (x := assign_fields
                  (TApplicationException.__init__
                     TApplicationException.UNKNOWN VNone) fields) in *.
      assert (He : e = to_value x \/ e = transport_error).
      { destruct rest' as [|[| |] rest'']; cbn in Hrun;
          try (right; congruence).
        left. unfold py_raise, isinstance, to_value in Hrun.
        unfold x in Hrun at 1. rewrite assign_fields_class in Hrun.
        cbn in Hrun. unfold throw in Hrun. unfold to_value.
        inversion Hrun. unfold x. rewrite assign_fields_class. reflexivity. }
      destruct He as [->| ->]; [|discriminate Hcode].
      unfold Session.has_code, to_value in Hcode.
      apply andb_prop in Hcode. destruct Hcode as [_ Hcode].
      destruct (dict_get "type" (p_dict x)) as [[|z| |]|] eqn:Ht;
        try discriminate Hcode.
      apply Z.eqb_eq in Hcode. subst z.
      destruct (assign_fields_type fields
                  (TApplicationException.__init__
                     TApplicationException.UNKNOWN VNone)
                  _ eq_refl Ht) as [H0|Hin];
        [discriminate H0 | exact Hin].
    + (* a result read as a reply *)
      left.
      destruct (service_attr (TClient._service c) (String.append api "_result"))
        as [rc|]; cbn in Hrun; [|inversion Hrun; subst e; discriminate Hcode].
      set (result := assign_fields (new rc) fields) in *.
      destruct rest' as [|[| |] rest'']; cbn in Hrun;
        try (inversion Hrun; subst e; discriminate Hcode).
      destruct (present (getattr result "success")); [discriminate Hrun|].
      destruct (List.length (thrift_spec result) =? 0)%nat; [discriminate Hrun|].
      destruct (TClient.check_throws (p_dict result)) as [v|] eqn:Hct.
      * unfold py_raise, throw in Hrun.
        destruct (isinstance v BaseException_cls);
          [|inversion Hrun; subst e; discriminate Hcode].
        inversion Hrun. subst v.
        apply check_throws_Some in Hct. destruct Hct as [k [Hin [_ Hv]]].
        apply assign_fields_values in Hin. destruct Hin as [Hin|Hin].
        -- apply new_all_None in Hin. contradiction.
        -- exact Hin.
      * destruct (hasattr result "success"); [|discriminate Hrun].
        inversion Hrun. subst e. discriminate Hcode.
Qed.

Lemma recv_reads_any_other_type_as_reply_witness :
  TMessageType.ONEWAY <> TMessageType.EXCEPTION /\
  TClient._recv Sample.client "add"
    (World (Sample.message "add" TMessageType.ONEWAY 0 [(0, VInt 5)]) [])
  = TClient._recv Sample.client "add"
      (World (Sample.message "add" TMessageType.REPLY 0 [(0, VInt 5)]) []).
Proof.
  split; [discriminate|].
  exact (proj1 (recv_reads_any_other_type_as_reply Sample.client "add" "add"
                  TMessageType.ONEWAY 0 _ [])
               ltac:(discriminate)).
Defined.






(** *** The client and the request *)

Lemma keys_combine_NoDup (names : list string) : forall (args : list value),
  NoDup names -> NoDup (keys (combine names args)).
Proof.
  induction names as [|n names IH]; intros args H; cbn.
  - constructor.
  - destruct args as [|a args]; cbn; [constructor|].
    inversion H as [|x l Hnotin Hnodup]; subst.
    constructor; [|apply IH; exact Hnodup].
    intros Hin. apply Hnotin.
    unfold keys in Hin. apply in_map_iff in Hin.
    destruct Hin as [[k v] [E Hin]]. cbn in E. subst k.
    apply in_combine_l in Hin. exact Hin.
Qed.

(** The attributes of the request object once the bound pairs are
    assigned. *)
Lemma p_dict_setattrs (bound : dict value) : forall obj : payload,
  p_dict (fold_left (fun o kv => setattr o (fst kv) (snd kv)) bound obj)
  = dict_update (p_dict obj) bound.
Proof.
  unfold dict_update.
  induction bound as [|[k v] bound IH]; intros obj; cbn [fold_left fst snd].
  - reflexivity.
  - rewrite IH. reflexivity.
Qed.

(** The claim of C8 fails: an excess positional argument, a value given
    both by position and by name, and a name that the schema does not
    have are all accepted; the three calls complete and send the same
    request as [add(2, 3)]. *)
Lemma req_accepts_loose_arguments :
  let reply := Sample.message "add" TMessageType.REPLY 0 [(0, VInt 5)] in
  let request :=
    Sample.message "add" TMessageType.CALL 0 [(1, VInt 2); (2, VInt 3)] in
  let sends (args : list value) (kwargs : dict value) :=
    let r := TClient._req Sample.client "add" args kwargs (World reply []) in
    fst r = Ok (VInt 5) /\ written (trace (snd r)) = request in
  sends [VInt 2; VInt 3] [] /\
  sends [VInt 2; VInt 3; VInt 4] [] /\
  sends [VInt 2] [("a", VInt 9); ("b", VInt 3)] /\
  sends [VInt 2; VInt 3] [("zzz", VInt 1)].
Proof. cbv zeta. repeat split. Qed.

Lemma setattrs_assignable (items : list (string * value)) : forall obj,
  forallb assignable (keys items) = true ->
  setattrs obj items
  = Ok (fold_left (fun o kv => setattr o (fst kv) (snd kv)) items obj).
Proof.
  induction items as [|[k v] items IH]; intros obj H; [reflexivity|].
  cbn [keys map fst forallb] in H. apply andb_true_iff in H.
  destruct H as [Hk Hrest].
  cbn [setattrs fold_left fst snd].
  rewrite (py_setattr_assignable obj k v Hk). apply IH. exact Hrest.
Qed.

Lemma writable_true (obj : payload) :
  writable obj = true ->
  hasattr obj "write" = false /\ hasattr obj "thrift_spec" = false.
Proof.
  unfold writable. intros H. apply andb_true_iff in H.
  destruct H as [H1 H2]. apply negb_true_iff in H1, H2. auto.
Qed.

(** A named argument [write] takes the place of the method of the
    request object: the call ends in a [TypeError] with the message
    begun and nothing after it. *)
Example req_with_keyword_write :
  TClient._req Sample.client "add" [VInt 2; VInt 3] [("write", VInt 1)]
    (World (Sample.message "add" TMessageType.REPLY 0 [(0, VInt 5)]) [])
  = (Raise (builtin_error TypeError_cls),
     World (Sample.message "add" TMessageType.REPLY 0 [(0, VInt 5)])
       [EvWriteMessageBegin "add" TMessageType.CALL 0]).
Proof. reflexivity. Qed.

(** C8, amended: the positional arguments are bound to the field names
    of the request schema in ascending field id, as far as the shorter
    of the two lists goes, so that excess positional arguments are
    dropped; the named arguments are kept for every other name, and a
    positional value replaces a named one of the same name; every bound
    pair, also under a name that the schema does not have, is assigned
    to a new request object, and the CALL is written with the fields of
    that object.  This holds when the field names of the schema are
    distinct, the named arguments form a dictionary, no bound name is
    [self], [api], [__class__], [__dict__] or [__weakref__], and the
    request object has no attribute [write] or [thrift_spec] once the
    pairs are assigned. *)
Theorem req_binds_and_sends (c : TClient.t) (api : string)
    (args : list value) (kwargs : dict value) (cls_args : payload_class)
    (w : world)
    (Hargs : service_attr (TClient._service c) (String.append api "_args")
             = Some cls_args)
    (Hnames : NoDup (arg_names (pc_thrift_spec cls_args)))
    (Hkwargs : NoDup (keys kwargs))
    (Hclash : TClient.clashes_with_parameters
                (dict_update kwargs (args2kwargs (pc_thrift_spec cls_args) args))
              = false)
    (Hassign : forallb assignable
                 (keys (dict_update kwargs
                          (args2kwargs (pc_thrift_spec cls_args) args)))
               = true)
    (Hwritable :
       writable
         (fold_left (fun o kv => setattr o (fst kv) (snd kv))
            (dict_update kwargs (args2kwargs (pc_thrift_spec cls_args) args))
            (new cls_args))
       = true) :
  let names := arg_names (pc_thrift_spec cls_args) in
  let bound := dict_update kwargs (args2kwargs (pc_thrift_spec cls_args) args) in
  let request :=
    fold_left (fun o kv => setattr o (fst kv) (snd kv)) bound (new cls_args) in
  (forall k,
     dict_get k bound
     = match dict_get k (combine names args) with
       | Some v => Some v
       | None => dict_get k kwargs
       end) /\
  (forall k,
     getattr request k
     = match dict_get k bound with
       | Some v => Some v
       | None => getattr (new cls_args) k
       end) /\
  TClient._req c api args kwargs w
  = TClient._recv c api
      (World (input w)
         (trace w ++
          [EvWriteMessageBegin api TMessageType.CALL (TClient._seqid c);
           EvWriteStruct (wire_fields request);
           EvWriteMessageEnd; EvFlush])).
Proof.
  cbv zeta.
  set (bound := dict_update kwargs (args2kwargs (pc_thrift_spec cls_args) args))
    in *.
  assert (Hkw : NoDup (keys (args2kwargs (pc_thrift_spec cls_args) args))).
  { unfold args2kwargs, dict_of_pairs. apply NoDup_keys_dict_update. constructor. }
  assert (Hbound : NoDup (keys bound)).
  { unfold bound. apply NoDup_keys_dict_update. exact Hkwargs. }
  split; [|split].
  - intros k. unfold bound. rewrite dict_get_update, (dict_get_rev _ k Hkw).
    unfold args2kwargs, dict_of_pairs.
    rewrite dict_get_update, dict_get_rev by (apply keys_combine_NoDup; exact Hnames).
    destruct (dict_get k (combine (arg_names (pc_thrift_spec cls_args)) args));
      reflexivity.
  - intros k. unfold getattr.
    rewrite p_dict_setattrs, dict_get_update, (dict_get_rev _ k Hbound).
    reflexivity.
  - destruct (writable_true _ Hwritable) as [Hw Hs].
    unfold TClient._req at 1. unfold bind at 1. unfold service_getattr at 1.
    rewrite Hargs. unfold ret at 1. fold bound. rewrite Hclash.
    unfold bind at 1. unfold TClient._send.
    unfold bind, write_message_begin, emit, service_getattr, lift, ret.
    cbn [input trace]. rewrite Hargs.
    rewrite (setattrs_assignable bound (new cls_args) Hassign).
    unfold py_write, write_struct. rewrite Hw, Hs.
    unfold write_message_end, flush, emit. cbn [input trace].
    rewrite !app_cons_assoc. reflexivity.
Qed.

Lemma req_binds_and_sends_witness :
  TClient._req Sample.client "add" [VInt 2] [("a", VInt 9); ("b", VInt 3)]
    (World (Sample.message "add" TMessageType.REPLY 0 [(0, VInt 5)]) [])
  = (Ok (VInt 5),
     World []
       [EvWriteMessageBegin "add" TMessageType.CALL 0;
        EvWriteStruct [(1, VInt 2); (2, VInt 3)];
        EvWriteMessageEnd; EvFlush;
        EvReadMessageBegin; EvReadStruct; EvReadMessageEnd]).
Proof.
  rewrite (proj2 (proj2 (req_binds_and_sends Sample.client "add" [VInt 2]
                           [("a", VInt 9); ("b", VInt 3)] Sample.add_args
                           (World (Sample.message "add" TMessageType.REPLY 0
                                     [(0, VInt 5)]) [])
                           eq_refl
                           ltac:(repeat constructor; cbn; intuition discriminate)
                           ltac:(repeat constructor; cbn; intuition discriminate)
                           eq_refl eq_refl eq_refl))).
  reflexivity.
Defined.

(** ** Further properties of the payload comparison *)

Lemma dict_eqb_refl {V : Type} (veq : V -> V -> bool) (d : dict V) :
  (forall x, veq x x = true) -> dict_eqb veq d d = true.
Proof.
  intros Hrefl. unfold dict_eqb. apply forallb_forall. intros k _.
  destruct (dict_get k d); cbn; auto.
Qed.

(** X1: called as a plain method, [__eq__] is one-sided between a class
    and a proper subclass: with the same attributes, the instance of
    the base class accepts the instance of the subclass and the
    instance of the subclass rejects the instance of the base class. *)
Theorem eq_method_one_sided_on_subclass (V : Type) (veq : V -> V -> bool)
    (a b : TPayload.instance V)
    (Hrefl : forall x, veq x x = true)
    (Hsub : issubclass (TPayload.__class__ b) (TPayload.__class__ a) = true)
    (Hproper : TPayload.__class__ a <> TPayload.__class__ b)
    (Hdict : TPayload.__dict__ a = TPayload.__dict__ b) :
  TPayload.__eq__ V veq a b = true /\ TPayload.__eq__ V veq b a = false.
Proof.
  unfold TPayload.__eq__, TPayload.isinstance. rewrite Hsub, Hdict. split.
  - apply dict_eqb_refl. exact Hrefl.
  - destruct (issubclass (TPayload.__class__ a) (TPayload.__class__ b)) eqn:E;
      [|reflexivity].
    exfalso. apply Hproper. apply issubclass_antisym; assumption.
Qed.

Lemma eq_method_one_sided_on_subclass_witness :
  TPayload.__eq__ Z Z.eqb Sample.pt Sample.pt3 = true /\
  TPayload.__eq__ Z Z.eqb Sample.pt3 Sample.pt = false.
Proof.
  apply (eq_method_one_sided_on_subclass Z Z.eqb Sample.pt Sample.pt3).
  - exact Z.eqb_refl.
  - reflexivity.
  - discriminate.
  - reflexivity.
Defined.

(** X2: [==] on payload instances is reflexive and transitive, when the
    field values are compared by an equality that holds exactly on
    identical values. *)
Theorem op_eq_refl_trans (V : Type) (veq : V -> V -> bool)
    (Hveq : forall x y, veq x y = true <-> x = y)
    (a b c : TPayload.instance V) :
  TPayload.op_eq V veq a a = true /\
  (TPayload.op_eq V veq a b = true -> TPayload.op_eq V veq b c = true ->
   TPayload.op_eq V veq a c = true).
Proof.
  split.
  - rewrite (TPayload.op_eq_same_class V veq a a eq_refl).
    apply dict_eqb_refl. intros x. apply Hveq. reflexivity.
  - intros Hab Hbc.
    pose proof (TPayload.op_eq_class V veq a b Hab) as Cab.
    pose proof (TPayload.op_eq_class V veq b c Hbc) as Cbc.
    rewrite (TPayload.op_eq_same_class V veq a b Cab) in Hab.
    rewrite (TPayload.op_eq_same_class V veq b c Cbc) in Hbc.
    rewrite (TPayload.op_eq_same_class V veq a c (eq_trans Cab Cbc)).
    apply (dict_eqb_true_iff veq _ _ Hveq). intros k.
    rewrite (proj1 (dict_eqb_true_iff veq _ _ Hveq) Hab k).
    apply (proj1 (dict_eqb_true_iff veq _ _ Hveq) Hbc k).
Qed.

Lemma op_eq_refl_trans_witness :
  TPayload.op_eq Z Z.eqb Sample.pt Sample.pt = true /\
  (TPayload.op_eq Z Z.eqb Sample.pt Sample.pt = true ->
   TPayload.op_eq Z Z.eqb Sample.pt Sample.pt = true ->
   TPayload.op_eq Z Z.eqb Sample.pt Sample.pt = true).
Proof.
  exact (op_eq_refl_trans Z Z.eqb Z.eqb_eq Sample.pt Sample.pt Sample.pt).
Defined.

(** ** Further properties of [TApplicationException] *)

(** X3: the text of an application exception is its message when the
    message is a non-empty string; an empty message counts as no
    message; and without a message every code other than 1 to 5
    (UNKNOWN, INTERNAL_ERROR, PROTOCOL_ERROR and any unlisted code)
    gives the default text. *)
Theorem application_exception_text (type : Z) (m : string) :
  (m <> "" ->
   TApplicationException.__str__ (TApplicationException.__init__ type (VStr m))
   = Ok (VStr m)) /\
  TApplicationException.__str__ (TApplicationException.__init__ type (VStr ""))
  = TApplicationException.__str__ (TApplicationException.__init__ type VNone) /\
  (type < 1 \/ 5 < type ->
   TApplicationException.__str__ (TApplicationException.__init__ type VNone)
   = Ok (VStr "Default (unknown) TApplicationException")).
Proof.
  split; [|split].
  - intros Hm. unfold TApplicationException.__str__. cbn.
    destruct (String.eqb_spec m ""); [contradiction|]. reflexivity.
  - reflexivity.
  - intros Hrange. unfold TApplicationException.__str__. cbn.
    destruct type as [|p|p]; try reflexivity.
    destruct p as [[[|[]|]|[[]|[]|]|]|[[|[]|]|[[]|[]|]|]|]; try reflexivity; lia.
Qed.

Lemma application_exception_text_witness :
  TApplicationException.__str__
    (TApplicationException.__init__ TApplicationException.INTERNAL_ERROR
       (VStr "boom"))
  = Ok (VStr "boom") /\
  TApplicationException.__str__
    (TApplicationException.__init__ TApplicationException.INTERNAL_ERROR VNone)
  = Ok (VStr "Default (unknown) TApplicationException").
Proof.
  split.
  - apply (proj1 (application_exception_text 6 "boom")). discriminate.
  - apply (proj2 (proj2 (application_exception_text 6 "boom"))). right. lia.
Defined.

(** ** Further properties of [args2kwargs] *)

Lemma dict_set_fresh {V : Type} (k : string) (v : V) (d : dict V) :
  ~ In k (keys d) -> dict_set k v d = d ++ [(k, v)].
Proof.
  induction d as [|[k0 v0] d IH]; cbn; intros H; [reflexivity|].
  destruct (String.eqb_spec k k0) as [->|N].
  - exfalso. apply H. left. reflexivity.
  - rewrite IH; [reflexivity|]. intros Hin. apply H. right. exact Hin.
Qed.

Lemma dict_update_fresh {V : Type} (l : dict V) : forall d : dict V,
  NoDup (keys d ++ keys l) -> dict_update d l = d ++ l.
Proof.
  unfold dict_update.
  induction l as [|[k v] l IH]; intros d H; cbn [fold_left fst snd].
  - rewrite app_nil_r. reflexivity.
  - cbn [keys map fst] in H.
    pose proof (NoDup_remove_2 _ _ _ H) as Hk.
    rewrite dict_set_fresh by (intros Hin; apply Hk, in_or_app; left; exact Hin).
    rewrite IH.
    + rewrite <- app_assoc. reflexivity.
    + unfold keys. rewrite map_app. cbn [map fst].
      rewrite <- app_assoc. exact H.
Qed.

(** X4: when the field names of the schema are distinct, [args2kwargs]
    is the list of pairs of the names by ascending field id with the
    positional arguments, cut at the shorter of the two; it has as many
    items as the smaller of the number of fields and the number of
    arguments. *)
Theorem args2kwargs_is_zip (thrift_spec : spec) (args : list value)
    (Hnames : NoDup (arg_names thrift_spec)) :
  args2kwargs thrift_spec args = combine (arg_names thrift_spec) args /\
  List.length (args2kwargs thrift_spec args)
  = Nat.min (List.length thrift_spec) (List.length args).
Proof.
  assert (E : args2kwargs thrift_spec args
              = combine (arg_names thrift_spec) args).
  { unfold args2kwargs, dict_of_pairs. rewrite dict_update_fresh; [reflexivity|].
    cbn [keys map app]. apply keys_combine_NoDup. exact Hnames. }
  split; [exact E|].
  rewrite E, length_combine. unfold arg_names.
  rewrite length_map, length_sorted_items. reflexivity.
Qed.

Lemma args2kwargs_is_zip_witness :
  args2kwargs Sample.two_ints [VInt 2; VInt 3; VInt 4]
  = [("a", VInt 2); ("b", VInt 3)].
Proof.
  apply (proj1 (args2kwargs_is_zip Sample.two_ints [VInt 2; VInt 3; VInt 4]
                  ltac:(repeat constructor; cbn; intuition discriminate))).
Defined.

(** The order of [sorted]: strictly ascending field id. *)
Definition id_lt {A : Type} (x y : Z * A) : Prop := fst x < fst y.

Lemma insert_item_perm {A : Type} (x : Z * A) (l : list (Z * A)) :
  Permutation (insert_item x l) (x :: l).
Proof.
  induction l as [|y l IH]; cbn; [reflexivity|].
  destruct (fst x <=? fst y); [reflexivity|].
  rewrite IH. apply perm_swap.
Qed.

Lemma sorted_items_perm {A : Type} (l : list (Z * A)) :
  Permutation (sorted_items l) l.
Proof.
  induction l as [|y l IH]; [reflexivity|].
  change (sorted_items (y :: l)) with (insert_item y (sorted_items l)).
  rewrite insert_item_perm, IH. reflexivity.
Qed.

Lemma insert_item_sorted {A : Type} (x : Z * A) (l : list (Z * A)) :
  StronglySorted id_lt l -> ~ In (fst x) (map fst l) ->
  StronglySorted id_lt (insert_item x l).
Proof.
  induction 1 as [|y l Hl IH Hy]; cbn [insert_item]; intros Hx.
  - constructor; constructor.
  - cbn [map] in Hx.
    assert (Hne : fst x <> fst y) by (intros E; apply Hx; left; symmetry; exact E).
    assert (Hx' : ~ In (fst x) (map fst l)) by (intros H; apply Hx; right; exact H).
    destruct (Z.leb_spec (fst x) (fst y)) as [Hle|Hgt].
    + constructor; [constructor; assumption|].
      constructor; [unfold id_lt; lia|].
      rewrite Forall_forall in *. intros z Hz. specialize (Hy z Hz).
      unfold id_lt in *. lia.
    + constructor; [apply IH; exact Hx'|].
      rewrite Forall_forall in *. intros z Hz.
      apply In_insert_item in Hz. destruct Hz as [->|Hz];
        [unfold id_lt; lia | apply Hy; exact Hz].
Qed.

Lemma sorted_items_sorted {A : Type} (l : list (Z * A)) :
  NoDup (map fst l) -> StronglySorted id_lt (sorted_items l).
Proof.
  induction l as [|y l IH]; intros H.
  - constructor.
  - change (sorted_items (y :: l)) with (insert_item y (sorted_items l)).
    inversion H as [|k ks Hnotin Hnodup]; subst.
    apply insert_item_sorted; [apply IH; exact Hnodup|].
    intros Hin. apply Hnotin.
    apply (Permutation_in _ (Permutation_map fst (sorted_items_perm l))).
    exact Hin.
Qed.

Lemma sorted_unique {A : Type} : forall l1 l2 : list (Z * A),
  StronglySorted id_lt l1 -> StronglySorted id_lt l2 ->
  Permutation l1 l2 -> l1 = l2.
Proof.
  induction l1 as [|a l1 IH]; intros l2 H1 H2 Hp.
  - apply Permutation_nil in Hp. symmetry. exact Hp.
  - destruct l2 as [|b l2].
    + apply Permutation_sym, Permutation_nil in Hp. discriminate.
    + inversion H1 as [|? ? S1 F1]; subst. inversion H2 as [|? ? S2 F2]; subst.
      rewrite Forall_forall in F1, F2.
      assert (Hab : a = b).
      { assert (Ha : In a (b :: l2))
          by (apply (Permutation_in _ Hp); left; reflexivity).
        assert (Hb : In b (a :: l1))
          by (apply (Permutation_in _ (Permutation_sym Hp)); left; reflexivity).
        destruct Ha as [E|Ha]; [symmetry; exact E|].
        destruct Hb as [E|Hb]; [exact E|].
        specialize (F1 b Hb). specialize (F2 a Ha). unfold id_lt in *. lia. }
      subst b. f_equal. apply IH; try assumption.
      apply (Permutation_cons_inv Hp).
Qed.

(** X5: the order in which the [thrift_spec] dictionary lists its
    entries has no effect on [args2kwargs]: two schemas with the same
    entries under distinct field ids bind the positional arguments
    alike. *)
Theorem args2kwargs_ignores_schema_order (s1 s2 : spec) (args : list value)
    (Hids : NoDup (map fst s1))
    (Hperm : Permutation s1 s2) :
  args2kwargs s1 args = args2kwargs s2 args.
Proof.
  assert (E : sorted_items s1 = sorted_items s2).
  { apply sorted_unique.
    - apply sorted_items_sorted. exact Hids.
    - apply sorted_items_sorted.
      apply (Permutation_NoDup (Permutation_map fst Hperm)). exact Hids.
    - rewrite !sorted_items_perm. exact Hperm. }
  unfold args2kwargs, arg_names. rewrite E. reflexivity.
Qed.

Lemma args2kwargs_ignores_schema_order_witness :
  args2kwargs [(1, Field TType.I32 "a"); (2, Field TType.I32 "b")] [VInt 2; VInt 3]
  = args2kwargs [(2, Field TType.I32 "b"); (1, Field TType.I32 "a")] [VInt 2; VInt 3].
Proof.
  apply args2kwargs_ignores_schema_order.
  - repeat constructor; cbn; intuition discriminate.
  - apply perm_swap.
Defined.

(** ** Further properties of [TClient] *)

Lemma name_in_In (x : string) (xs : list string) :
  name_in x xs = true <-> In x xs.
Proof.
  unfold name_in. rewrite existsb_exists. split.
  - intros [y [Hin E]]. apply String.eqb_eq in E. subst. exact Hin.
  - intros Hin. exists x. split; [exact Hin | apply String.eqb_refl].
Qed.

(** X6: the names that [__dir__] lists are exactly the attributes that
    [__getattr__] resolves, each to [_req] applied to that name; any
    other name is an [AttributeError]. *)
Theorem getattr_resolves_dir (c : TClient.t) (api : string) :
  (In api (TClient.__dir__ c) ->
   TClient.__getattr__ c api = Ok (TClient._req c api)) /\
  (~ In api (TClient.__dir__ c) ->
   TClient.__getattr__ c api = Raise (builtin_error AttributeError_cls)).
Proof.
  unfold TClient.__getattr__, TClient.__dir__. split; intros H.
  - apply name_in_In in H. rewrite H. reflexivity.
  - destruct (name_in api (thrift_services (TClient._service c))) eqn:E;
      [|reflexivity].
    apply name_in_In in E. contradiction.
Qed.

Lemma getattr_resolves_dir_witness :
  TClient.__getattr__ Sample.client "div" = Ok (TClient._req Sample.client "div") /\
  TClient.__getattr__ Sample.client "unknownOp"
  = Raise (builtin_error AttributeError_cls).
Proof.
  split.
  - apply (proj1 (getattr_resolves_dir Sample.client "div")).
    cbn. tauto.
  - apply (proj2 (getattr_resolves_dir Sample.client "unknownOp")).
    cbn. intuition discriminate.
Defined.

(** X7: when the service has no class [<api>_args], [_send] raises the
    [AttributeError] after it has written the message begin, which
    stays on the outbound stream without struct or end; [_req] looks
    the class up first and raises before anything is written. *)
Theorem send_without_args_class (c : TClient.t) (api : string)
    (args : list value) (kwargs : dict value) (w : world)
    (Hnone : service_attr (TClient._service c) (String.append api "_args") = None) :
  TClient._send c api kwargs w
  = (Raise (builtin_error AttributeError_cls),
     World (input w)
       (trace w ++ [EvWriteMessageBegin api TMessageType.CALL (TClient._seqid c)]))
  /\ TClient._req c api args kwargs w
     = (Raise (builtin_error AttributeError_cls), w).
Proof.
  split; run; rewrite Hnone; reflexivity.
Qed.

Lemma send_without_args_class_witness :
  TClient._send Sample.client "unknownOp" [] (World [] [])
  = (Raise (builtin_error AttributeError_cls),
     World [] [EvWriteMessageBegin "unknownOp" TMessageType.CALL 0])
  /\ TClient._req Sample.client "unknownOp" [] [] (World [] [])
     = (Raise (builtin_error AttributeError_cls), World [] []).
Proof.
  exact (send_without_args_class Sample.client "unknownOp" [] [] (World [] [])
           eq_refl).
Defined.

(** X8: whatever the inbound stream holds and however the call ends,
    [_recv] does nothing but read: it performs an initial part of
    "read message begin, read struct, read message end", consumes one
    token for each, and writes nothing. *)
Theorem recv_only_reads (c : TClient.t) (api : string) (w : world) :
  exists n : nat,
    trace (snd (TClient._recv c api w)) = trace w ++ firstn n Session.recv_reads /\
    input (snd (TClient._recv c api w)) = skipn n (input w).
Proof.
  destruct w as [inp t]. run.
  destruct inp as [|[name mtype seqid| |] inp];
    try (exists 0%nat; cbn; rewrite app_nil_r; split; reflexivity).
  destruct (mtype =? TMessageType.EXCEPTION).
  - destruct inp as [|[| fields |] inp];
      try (exists 1%nat; cbn; split; reflexivity).
    destruct inp as [|[| |] inp];
      try (exists 2%nat; cbn; rewrite !app_cons_assoc; split; reflexivity).
    exists 3%nat. unfold py_raise, throw.
    destruct (isinstance _ BaseException_cls);
      cbn; rewrite !app_cons_assoc; split; reflexivity.
  - destruct (service_attr (TClient._service c) (String.append api "_result"))
      as [rc|]; [|exists 1%nat; cbn; split; reflexivity].
    destruct inp as [|[| fields |] inp];
      try (exists 1%nat; cbn; split; reflexivity).
    destruct inp as [|[| |] inp];
      try (exists 2%nat; cbn; rewrite !app_cons_assoc; split; reflexivity).
    exists 3%nat. cbn.
    destruct (present _); [cbn; rewrite !app_cons_assoc; split; reflexivity|].
    destruct (List.length _ =? 0)%nat;
      [cbn; rewrite !app_cons_assoc; split; reflexivity|].
    destruct (TClient.check_throws _) as [v|].
    + unfold py_raise, throw. destruct (isinstance v BaseException_cls);
        cbn; rewrite !app_cons_assoc; split; reflexivity.
    + destruct (hasattr _ _); cbn; rewrite !app_cons_assoc; split; reflexivity.
Qed.

(** ** Further properties of the processor and of a whole call *)




















(** A result class with a field named [write]: the constructor creates
    the attribute, [result.write] is no longer the method, and the
    processor ends in a [TypeError] with the message begun, also when
    the handler returns a value. *)
Example returned_value_with_field_write :
  let load_result :=
    PayloadClass (Class "load_result" [TPayload_cls])
      [(0, Field TType.I32 "success"); (1, Field TType.I32 "write")]
      ["success"; "write"] in
  let Store :=
    Service ["load"]
      (Sample.lookup [("load_args", Sample.noop_args);
                      ("load_result", load_result)]) in
  writable (new load_result) = false /\
  TProcessor.process
    (TProcessor.Make Store (fun _ _ => TProcessor.HReturn (VInt 7)))
    (World (Sample.message "load" TMessageType.CALL 4 []) [])
  = (Raise (builtin_error TypeError_cls),
     World []
       [EvReadMessageBegin; EvReadStruct; EvReadMessageEnd;
        EvInvoke "load" [];
        EvWriteMessageBegin "load" TMessageType.REPLY 4]).
Proof. split; reflexivity. Qed.



(** A declared exception whose slot is named [write] is stored under
    that name and takes the place of the method of the result object:
    the processor ends in a [TypeError] with the message begun and
    nothing after it. *)
Example declared_exception_in_slot_write :
  let save_result :=
    PayloadClass (Class "save_result" [TPayload_cls])
      [(0, Field TType.I32 "success");
       (1, ExcField TType.STRUCT "write" Sample.Unavailable)]
      ["success"] in
  let Store :=
    Service ["save"]
      (Sample.lookup [("save_args", Sample.noop_args);
                      ("save_result", save_result)]) in
  TProcessor.process
    (TProcessor.Make Store (fun _ _ => TProcessor.HRaise Sample.unavailable))
    (World (Sample.message "save" TMessageType.CALL 4 []) [])
  = (Raise (builtin_error TypeError_cls),
     World []
       [EvReadMessageBegin; EvReadStruct; EvReadMessageEnd;
        EvInvoke "save" [];
        EvWriteMessageBegin "save" TMessageType.REPLY 4]).
Proof. reflexivity. Qed.









(** Reading a struct none of whose field ids the schema has changes
    nothing. *)
Lemma assign_fields_unknown (fields : list (Z * value)) : forall obj,
  (forall fid x, In (fid, x) fields -> spec_get fid (thrift_spec obj) = None) ->
  assign_fields obj fields = obj.
Proof.
  unfold assign_fields.
  induction fields as [|[fid x] fields IH]; cbn [fold_left]; intros obj H.
  - reflexivity.
  - cbn [fst snd]. rewrite (H fid x (or_introl eq_refl)).
    apply IH. intros f y Hin. apply (H f y). right. exact Hin.
Qed.

(** X14: a reply of type EXCEPTION makes [_recv] raise an instance of
    [TApplicationException] read from the struct, for any method name,
    also one the service does not have; when the struct carries none
    of the field ids 1 and 2, the exception raised has the code UNKNOWN
    and no message. *)
Theorem exception_reply_raises_application_exception (c : TClient.t)
    (api fname : string) (rseqid : Z) (fields : list (Z * value))
    (rest : list token) (t : list event) :
  let x :=
    assign_fields
      (TApplicationException.__init__ TApplicationException.UNKNOWN VNone) fields in
  TClient._recv c api
    (World (TMessageBegin fname TMessageType.EXCEPTION rseqid :: TStruct fields
              :: TMessageEnd :: rest) t)
  = (Raise (to_value x), World rest (t ++ Session.recv_reads))
  /\ isinstance (to_value x) TApplicationException_cls = true
  /\ ((forall fid v, In (fid, v) fields -> fid <> 1 /\ fid <> 2) ->
      x = TApplicationException.__init__ TApplicationException.UNKNOWN VNone).
Proof.
  cbv zeta. split; [|split].
  - run. cbn. unfold py_raise, isinstance, to_value.
    rewrite assign_fields_class. cbn. rewrite !app_cons_assoc. reflexivity.
  - unfold isinstance, to_value. rewrite assign_fields_class. reflexivity.
  - intros H. apply assign_fields_unknown. intros fid v Hin.
    destruct (H fid v Hin) as [H1 H2]. cbn.
    destruct (Z.eqb_spec fid 1); [contradiction|].
    destruct (Z.eqb_spec fid 2); [contradiction|]. reflexivity.
Qed.

Lemma exception_reply_raises_application_exception_witness :
  TClient._recv Sample.client "unknownOp"
    (World (Sample.message "unknownOp" TMessageType.EXCEPTION 0 [(9, VInt 4)]) [])
  = (Raise (to_value (TApplicationException.__init__
                        TApplicationException.UNKNOWN VNone)),
     World [] ([] ++ Session.recv_reads)).
Proof.
  destruct (exception_reply_raises_application_exception Sample.client
              "unknownOp" "unknownOp" 0 [(9, VInt 4)] [] []) as [Hrun [_ Hdefault]].
  unfold Sample.message. rewrite Hrun, Hdefault; [reflexivity|].
  intros fid v [H|[]]. inversion H. split; discriminate.
Defined.
